(** * Event dispatch of the task system (h_server/task/task_system.py)

    The module holds the class [TaskSystem] (the dispatch loop [start], the
    event handler [_process_event] that [start] defines and launches for
    every event, and [stop]) and the process-wide accessor
    [get_task_system] / [set_task_system].

    The code runs on one cooperative execution context (anyio).  It is
    embedded as a labelled transition system: a step is the piece of code
    that one task (the loop, a handler, or an outside caller of [stop])
    executes between two suspension points ([await]).  The label names the
    task that is scheduled and carries what the environment answers to the
    [await] it was suspended on.  Everything the code does to its
    collaborators (queue, runners, logger, cancel scopes) is appended to a
    trace.

    The environment is not restricted: the queue and the runners may return
    or raise at every [await], a deadline may expire ([TimeoutError] out of
    the [fail_after] block), and a cancellation may arrive at every [await]
    that is not inside a shielded block.  What a task group does when one of
    its handlers ends with an exception (it cancels the others) is one of
    these behaviours and is not imposed on the schedules.

    Delays are seconds, as rationals; rounding of Python floats is not
    modelled.  Exceptions are the instances of Python's [Exception]; the
    cancellation that anyio delivers is a separate kind of answer. *)

From Stdlib Require Import ZArith QArith String List.
From stdpp Require Import gmap strings list.

Open Scope Z_scope.

(** ** Data *)

(** Modelled from the spec: [h_server.models.TaskEvent], whose declaration
    is not among the sources, is an immutable record with a task identifier
    and an event kind; these are the two attributes this module reads. *)
Record TaskEvent := { kind : string; task_id : Z }.

(** Modelled from the spec: a runner ([.task_runner], not among the
    sources) is constructed with
    [(task_id, state_cache, queue, task_name, distributed)], as lines 68-74
    do.  [runner_inst] is the identity of the Python object: two
    constructions give two instances.  The state cache and the queue are
    references that the task system only passes on. *)
Record TaskRunner := {
  runner_task_id : Z;
  runner_task_name : string;
  runner_distributed : bool;
  runner_inst : nat
}.

(** Modelled from the spec: [TaskError] ([.exceptions], not among the
    sources) is the domain error and carries a boolean, [retry], that line 98
    reads.  The other constructors are instances of [Exception] that the
    interpreter or any callee may raise. *)
Inductive exn :=
| TaskError (retry : bool)
| KeyError (key : Z)
| TimeoutError
| AssertionError (msg : string)
| OtherException (cls : string).

(** What an [await] evaluates to when the task is resumed.  [Cancelled] is
    a cancellation (of the task group's cancel scope, or of a scope around
    it) that anyio delivers at the suspension point; [Returns] carries the
    value of [process_event] and is read at no other [await]. *)
Inductive response :=
| Returns (finished : bool)
| Raises (e : exn)
| Cancelled.

(** [fail_after(delay, shield=...)]. *)
Record scope := fail_after { deadline : Q; shield : bool }.

Inductive level := DEBUG | ERROR.

(** The f-strings handed to the logger, with the values they interpolate. *)
Inductive message :=
| MsgCreate (tid : Z)
| MsgFinished (tid : Z)
| MsgSuccess (tid : Z) (k : string)
| MsgFailed (tid : Z) (k : string)
| MsgRetry (ev : TaskEvent) (tid : Z)
| MsgFinishedWithError (tid : Z)
| MsgUnknownError (tid : Z) (k : string)
| MsgTraceback (e : exn).

Inductive call :=
| init (r : TaskRunner)
| process_event (r : TaskRunner) (ev : TaskEvent)
| ack (ack_id : Z)
| no_ack (ack_id : Z)
| sleep (delay : Q).

Inductive action :=
| Received (ack_id : Z) (ev : TaskEvent)
| Construct (r : TaskRunner)
| Call (c : call)
| SetItem (tid : Z) (r : TaskRunner)
| DelItem (tid : Z)
| Enter (sc : scope)
| Exit
| Log (lvl : level) (msg : message)
| StartSoon (h : nat)
| EventSet
| CancelScope.

Inductive actor := Loop | Handler (h : nat) | Caller.

#[global] Instance actor_eq_dec : EqDecision actor.
Proof. solve_decision. Defined.

(** How a handler ended. *)
Inductive outcome := Finished | Raised (e : exn) | RaisedCancelled.

(** Where a handler is suspended; the line is the [await] of the source. *)
Inductive hpc :=
| HReady                    (* scheduled by start_soon, body not entered *)
| HProcess (r : TaskRunner) (* line 81, runner.process_event(event) *)
| HAck                      (* line 86, ack in the try body *)
| HCancelNoAck              (* line 92 *)
| HRetrySleep               (* line 101 *)
| HRetryNoAck               (* line 102 *)
| HFinalAck                 (* line 106 *)
| HUnknownNoAck             (* line 115 *)
| HDone (o : outcome).

(** A launched [_process_event]: its two parameters and its position. *)
Record handler := { h_ack_id : Z; h_event : TaskEvent; h_pc : hpc }.

(** Where [start] is. *)
Inductive loop_pc :=
| LNotStarted
| LIdle                                     (* line 62/63 *)
| LAwaitInit (ack_id : Z) (ev : TaskEvent)  (* line 75 *)
| LFailed (o : outcome).                    (* an exception left the loop *)

(** The object, the frame of the running [start] and the trace.
    [cell_task_id] and [cell_runner] are the local variables [task_id] and
    [runner] of [start]: [_process_event] does not take them as parameters,
    it refers to them as free variables, so every handler reads the
    variables of the one enclosing frame at the time it executes the
    reference. *)
Record TaskSystem := {
  _retry_delay : Q;
  _distributed : bool;
  _task_name : string;
  _stop_event : option bool;        (* None, or the Event and whether it is set *)
  _tg : option bool;                (* None, or the group and cancel_called *)
  _runners : gmap Z TaskRunner;
  loop : loop_pc;
  cell_task_id : option Z;
  cell_runner : option TaskRunner;
  handlers : list handler;
  next_inst : nat;
  trace : list (actor * action)
}.

(** TaskSystem.__init__ *)
Definition new_task_system (retry_delay : Q) (distributed : bool)
    (task_name : string) : TaskSystem :=
  {| _retry_delay := retry_delay; _distributed := distributed;
     _task_name := task_name; _stop_event := None; _tg := None;
     _runners := ∅; loop := LNotStarted; cell_task_id := None;
     cell_runner := None; handlers := []; next_inst := 0%nat; trace := [] |}.

Definition default_task_system : TaskSystem :=
  new_task_system 5 false "sd_lora_inference".

(** Field updates. *)
Definition with_lifecycle (se tg : option bool) (ts : TaskSystem) : TaskSystem :=
  {| _retry_delay := _retry_delay ts; _distributed := _distributed ts;
     _task_name := _task_name ts; _stop_event := se; _tg := tg;
     _runners := _runners ts; loop := loop ts;
     cell_task_id := cell_task_id ts; cell_runner := cell_runner ts;
     handlers := handlers ts; next_inst := next_inst ts; trace := trace ts |}.

Definition with_runners (m : gmap Z TaskRunner) (ts : TaskSystem) : TaskSystem :=
  {| _retry_delay := _retry_delay ts; _distributed := _distributed ts;
     _task_name := _task_name ts; _stop_event := _stop_event ts; _tg := _tg ts;
     _runners := m; loop := loop ts;
     cell_task_id := cell_task_id ts; cell_runner := cell_runner ts;
     handlers := handlers ts; next_inst := next_inst ts; trace := trace ts |}.

Definition with_frame (pc : loop_pc) (tid : option Z) (r : option TaskRunner)
    (ts : TaskSystem) : TaskSystem :=
  {| _retry_delay := _retry_delay ts; _distributed := _distributed ts;
     _task_name := _task_name ts; _stop_event := _stop_event ts; _tg := _tg ts;
     _runners := _runners ts; loop := pc;
     cell_task_id := tid; cell_runner := r;
     handlers := handlers ts; next_inst := next_inst ts; trace := trace ts |}.

Definition with_handlers (hs : list handler) (ts : TaskSystem) : TaskSystem :=
  {| _retry_delay := _retry_delay ts; _distributed := _distributed ts;
     _task_name := _task_name ts; _stop_event := _stop_event ts; _tg := _tg ts;
     _runners := _runners ts; loop := loop ts;
     cell_task_id := cell_task_id ts; cell_runner := cell_runner ts;
     handlers := hs; next_inst := next_inst ts; trace := trace ts |}.

Definition with_next_inst (n : nat) (ts : TaskSystem) : TaskSystem :=
  {| _retry_delay := _retry_delay ts; _distributed := _distributed ts;
     _task_name := _task_name ts; _stop_event := _stop_event ts; _tg := _tg ts;
     _runners := _runners ts; loop := loop ts;
     cell_task_id := cell_task_id ts; cell_runner := cell_runner ts;
     handlers := handlers ts; next_inst := n; trace := trace ts |}.

(** Append what [who] did to the trace. *)
Definition emit (who : actor) (acts : list action) (ts : TaskSystem) : TaskSystem :=
  {| _retry_delay := _retry_delay ts; _distributed := _distributed ts;
     _task_name := _task_name ts; _stop_event := _stop_event ts; _tg := _tg ts;
     _runners := _runners ts; loop := loop ts;
     cell_task_id := cell_task_id ts; cell_runner := cell_runner ts;
     handlers := handlers ts; next_inst := next_inst ts;
     trace := trace ts ++ map (pair who) acts |}.

(** ** The event handler [_process_event] (lines 79-115) *)

(** The [fail_after] block around each [await] of the handler; the call of
    [runner.process_event] (line 81) is in none. *)
Definition scope_at (ts : TaskSystem) (pc : hpc) : option scope :=
  match pc with
  | HAck => Some (fail_after 5 true)                                (* line 82 *)
  | HCancelNoAck => Some (fail_after 5 true)                        (* line 91 *)
  | HRetrySleep | HRetryNoAck =>
      Some (fail_after (_retry_delay ts + 5) true)                  (* line 99 *)
  | HFinalAck => Some (fail_after 5 true)                           (* line 105 *)
  | HUnknownNoAck => Some (fail_after 5 true)                       (* line 114 *)
  | HReady | HProcess _ | HDone _ => None
  end.

(** [self._tg.cancel_scope.cancel_called] *)
Definition cancel_called (ts : TaskSystem) : bool :=
  match _tg ts with Some c => c | None => false end.

(** anyio delivers a cancellation (of the task group, after [stop], or of a
    scope around [start]) to a task suspended at an [await], unless the
    [await] is inside a shielded block. *)
Definition delivers_cancel (ts : TaskSystem) (pc : hpc) : bool :=
  match scope_at ts pc with Some sc => negb (shield sc) | None => true end.

(** What one step of a handler does: where it suspends next, what it did,
    and the registry it leaves. *)
Record hstep := { hs_pc : hpc; hs_acts : list action; hs_runners : gmap Z TaskRunner }.

(** Lines 94-115: the clauses [except TaskError] and [except Exception], up
    to their first [await]. *)
Definition except_clauses (ts : TaskSystem) (hd : handler) (e : exn) : hstep :=
  let ev := h_event hd in
  match e with
  | TaskError retry =>
      if retry then
        {| hs_pc := HRetrySleep;
           hs_acts := [Log ERROR (MsgFailed (task_id ev) (kind ev));
                       Enter (fail_after (_retry_delay ts + 5) true);
                       Log DEBUG (MsgRetry ev (task_id ev));
                       Call (sleep (_retry_delay ts))];
           hs_runners := _runners ts |}
      else
        {| hs_pc := HFinalAck;
           hs_acts := [Log ERROR (MsgFailed (task_id ev) (kind ev));
                       Enter (fail_after 5 true);
                       Call (ack (h_ack_id hd))];
           hs_runners := _runners ts |}
  | _ =>
      {| hs_pc := HUnknownNoAck;
         hs_acts := [Log ERROR (MsgTraceback e);
                     Log ERROR (MsgUnknownError (task_id ev) (kind ev));
                     Enter (fail_after 5 true);
                     Call (no_ack (h_ack_id hd))];
         hs_runners := _runners ts |}
  end.

(** Lines 90-92: the clause [except get_cancelled_exc_class()], up to its
    [await]. *)
Definition cancelled_clause (ts : TaskSystem) (hd : handler) : hstep :=
  {| hs_pc := HCancelNoAck;
     hs_acts := [Enter (fail_after 5 true); Call (no_ack (h_ack_id hd))];
     hs_runners := _runners ts |}.

Definition prepend (acts : list action) (s : hstep) : hstep :=
  {| hs_pc := hs_pc s; hs_acts := acts ++ hs_acts s; hs_runners := hs_runners s |}.

(** The handler leaves with [o]; the [with] block it was in is left too. *)
Definition leave (ts : TaskSystem) (o : outcome) : hstep :=
  {| hs_pc := HDone o; hs_acts := [Exit]; hs_runners := _runners ts |}.

(** The handler is resumed with the answer [resp] to the [await] it was
    suspended on, and runs to its next [await] or to its end.  [None]: the
    environment cannot give this answer here. *)
Definition resume_handler (ts : TaskSystem) (hd : handler) (resp : response)
    : option hstep :=
  let ev := h_event hd in
  match resp with
  | Cancelled =>
      if delivers_cancel ts (h_pc hd) then
        match h_pc hd with
        | HProcess _ => Some (cancelled_clause ts hd)
        | HAck => Some (prepend [Exit] (cancelled_clause ts hd))
        | HCancelNoAck | HRetrySleep | HRetryNoAck | HFinalAck | HUnknownNoAck =>
            Some (leave ts RaisedCancelled)
        | HReady | HDone _ => None
        end
      else None
  | Returns finished =>
      match h_pc hd with
      | HProcess _ =>
          (* lines 82-86 *)
          if finished then
            match cell_task_id ts with
            | Some tid =>
                match _runners ts !! tid with
                | Some _ =>
                    Some {| hs_pc := HAck;
                            hs_acts := [Enter (fail_after 5 true); DelItem tid;
                                        Log DEBUG (MsgFinished (task_id ev));
                                        Call (ack (h_ack_id hd))];
                            hs_runners := delete tid (_runners ts) |}
                | None =>
                    Some (prepend [Enter (fail_after 5 true); Exit]
                            (except_clauses ts hd (KeyError tid)))
                end
            | None => None
            end
          else
            Some {| hs_pc := HAck;
                    hs_acts := [Enter (fail_after 5 true); Call (ack (h_ack_id hd))];
                    hs_runners := _runners ts |}
      | HAck =>
          (* lines 87-89 *)
          Some {| hs_pc := HDone Finished;
                  hs_acts := [Log DEBUG (MsgSuccess (task_id ev) (kind ev)); Exit];
                  hs_runners := _runners ts |}
      | HCancelNoAck =>
          (* line 93: raise e *)
          Some (leave ts RaisedCancelled)
      | HRetrySleep =>
          (* line 102 *)
          Some {| hs_pc := HRetryNoAck;
                  hs_acts := [Call (no_ack (h_ack_id hd))];
                  hs_runners := _runners ts |}
      | HRetryNoAck => Some (leave ts Finished)
      | HFinalAck =>
          (* lines 107-108 *)
          match cell_task_id ts with
          | Some tid =>
              match _runners ts !! tid with
              | Some _ =>
                  Some {| hs_pc := HDone Finished;
                          hs_acts := [DelItem tid;
                                      Log DEBUG (MsgFinishedWithError (task_id ev));
                                      Exit];
                          hs_runners := delete tid (_runners ts) |}
              | None => Some (leave ts (Raised (KeyError tid)))
              end
          | None => None
          end
      | HUnknownNoAck => Some (leave ts Finished)
      | HReady | HDone _ => None
      end
  | Raises e =>
      match h_pc hd with
      | HProcess _ => Some (except_clauses ts hd e)
      | HAck => Some (prepend [Exit] (except_clauses ts hd e))
      | HCancelNoAck | HRetrySleep | HRetryNoAck | HFinalAck | HUnknownNoAck =>
          (* raised inside an except clause: it leaves the handler *)
          Some (leave ts (Raised e))
      | HReady | HDone _ => None
      end
  end.

Definition set_pc (pc : hpc) (hd : handler) : handler :=
  {| h_ack_id := h_ack_id hd; h_event := h_event hd; h_pc := pc |}.

Definition apply_hstep (h : nat) (hd : handler) (s : hstep) (ts : TaskSystem)
    : TaskSystem :=
  with_handlers (<[h := set_pc (hs_pc s) hd]> (handlers ts))
    (with_runners (hs_runners s) (emit (Handler h) (hs_acts s) ts)).

(** The body of a handler is entered: line 81 reads [runner] and calls
    [process_event] on it. *)
Definition enter_process (r : TaskRunner) (hd : handler) (ts : TaskSystem) : hstep :=
  {| hs_pc := HProcess r;
     hs_acts := [Call (process_event r (h_event hd))];
     hs_runners := _runners ts |}.

Definition start_handler (h : nat) (ts : TaskSystem) : option TaskSystem :=
  match handlers ts !! h with
  | Some hd =>
      match h_pc hd, cell_runner ts with
      | HReady, Some r => Some (apply_hstep h hd (enter_process r hd ts) ts)
      | _, _ => None
      end
  | None => None
  end.

Definition resume (h : nat) (resp : response) (ts : TaskSystem) : option TaskSystem :=
  match handlers ts !! h with
  | Some hd =>
      match resume_handler ts hd resp with
      | Some s => Some (apply_hstep h hd s ts)
      | None => None
      end
  | None => None
  end.

(** ** The dispatch loop [start] (lines 53-125) and [stop] (lines 127-131) *)

(** Lines 54-61: the two assertions, the stop event, the task group. *)
Definition start_enter (ts : TaskSystem) : exn + TaskSystem :=
  match _stop_event ts, _tg ts with
  | None, None =>
      inr (with_frame LIdle None None (with_lifecycle (Some false) (Some false) ts))
  | _, _ => inl (AssertionError "The TaskSystem has already been started.")
  end.

(** [tg.start_soon(_process_event, ack_id, event)], line 117. *)
Definition start_soon (ack_id : Z) (ev : TaskEvent) (ts : TaskSystem) : TaskSystem :=
  with_handlers
    (handlers ts ++ [{| h_ack_id := ack_id; h_event := ev; h_pc := HReady |}])
    (emit Loop [StartSoon (length (handlers ts))] ts).

(** Lines 68-74: [self._runner_cls(...)]. *)
Definition new_runner (tid : Z) (ts : TaskSystem) : TaskRunner :=
  {| runner_task_id := tid; runner_task_name := _task_name ts;
     runner_distributed := _distributed ts; runner_inst := next_inst ts |}.

(** Lines 63-75 and 117: [get] has returned [(ack_id, event)].  With a
    registered runner the loop goes on to line 117 and back to line 62;
    without one it constructs a runner and suspends in [runner.init()]. *)
Definition receive (ack_id : Z) (ev : TaskEvent) (ts : TaskSystem) : TaskSystem :=
  let tid := task_id ev in
  match _runners ts !! tid with
  | Some r =>
      start_soon ack_id ev
        (with_frame LIdle (Some tid) (Some r) (emit Loop [Received ack_id ev] ts))
  | None =>
      let r := new_runner tid ts in
      with_frame (LAwaitInit ack_id ev) (Some tid) (Some r)
        (with_next_inst (S (next_inst ts))
           (emit Loop [Received ack_id ev; Construct r; Call (init r)] ts))
  end.

(** Lines 76-77 and 117: [runner.init()] has returned. *)
Definition register (ack_id : Z) (ev : TaskEvent) (ts : TaskSystem)
    : option TaskSystem :=
  match cell_task_id ts, cell_runner ts with
  | Some tid, Some r =>
      Some (start_soon ack_id ev
              (with_frame LIdle (Some tid) (Some r)
                 (emit Loop [SetItem tid r; Log DEBUG (MsgCreate (task_id ev))]
                    (with_runners (<[tid := r]> (_runners ts)) ts))))
  | _, _ => None
  end.

(** [runner.init()] is answered. *)
Definition init_done (resp : response) (ts : TaskSystem) : option TaskSystem :=
  match loop ts with
  | LAwaitInit ack_id ev =>
      match resp with
      | Returns _ => register ack_id ev ts
      | Raises e =>
          Some (with_frame (LFailed (Raised e)) (cell_task_id ts) (cell_runner ts) ts)
      | Cancelled =>
          Some (with_frame (LFailed RaisedCancelled) (cell_task_id ts)
                  (cell_runner ts) ts)
      end
  | _ => None
  end.

Definition is_done (hd : handler) : bool :=
  match h_pc hd with HDone _ => true | _ => false end.

(** The loop is left (stop event set, cancellation at [get], or an
    exception) and the task group has waited for its handlers. *)
Definition leaving (ts : TaskSystem) : bool :=
  match loop ts, _stop_event ts with
  | LIdle, Some true => true
  | LFailed _, _ => true
  | _, _ => false
  end && forallb is_done (handlers ts).

(** The [finally] clause (lines 124-125) runs and [start] is left. *)
Definition start_exit (ts : TaskSystem) : option TaskSystem :=
  if leaving ts then
    Some (with_frame LNotStarted None None (with_lifecycle None None ts))
  else None.

(** [stop], lines 127-131. *)
Definition stop (ts : TaskSystem) : TaskSystem :=
  let ts1 :=
    match _stop_event ts with
    | Some _ => emit Caller [EventSet] (with_lifecycle (Some true) (_tg ts) ts)
    | None => ts
    end in
  match _tg ts1 with
  | Some false => emit Caller [CancelScope] (with_lifecycle (_stop_event ts1) (Some true) ts1)
  | _ => ts1
  end.

(** ** The scheduler *)

Inductive label :=
| LStart                                  (* start() is called *)
| LRecv (ack_id : Z) (ev : TaskEvent)     (* the loop: get() returns *)
| LInit (resp : response)                 (* the loop: runner.init() answers *)
| LStartHandler (h : nat)                 (* handler h is entered *)
| LResume (h : nat) (resp : response)     (* handler h: its await answers *)
| LStop                                   (* stop() is called *)
| LExit.                                  (* start() is left *)

Definition step (l : label) (ts : TaskSystem) : option TaskSystem :=
  match l with
  | LStart =>
      match loop ts, start_enter ts with
      | LNotStarted, inr ts' => Some ts'
      | _, _ => None
      end
  | LRecv ack_id ev =>
      match loop ts, _stop_event ts with
      | LIdle, Some false => Some (receive ack_id ev ts)
      | _, _ => None
      end
  | LInit resp => init_done resp ts
  | LStartHandler h => start_handler h ts
  | LResume h resp => resume h resp ts
  | LStop => Some (stop ts)
  | LExit => start_exit ts
  end.

Fixpoint run (ls : list label) (ts : TaskSystem) : option TaskSystem :=
  match ls with
  | [] => Some ts
  | l :: ls' =>
      match step l ts with
      | Some ts' => run ls' ts'
      | None => None
      end
  end.

(** The steps, case by case. *)
Inductive Step : label → TaskSystem → TaskSystem → Prop :=
| Step_start ts :
    loop ts = LNotStarted → _stop_event ts = None → _tg ts = None →
    Step LStart ts
      (with_frame LIdle None None (with_lifecycle (Some false) (Some false) ts))
| Step_reuse a ev r ts :
    loop ts = LIdle → _stop_event ts = Some false →
    _runners ts !! task_id ev = Some r →
    Step (LRecv a ev) ts
      (start_soon a ev
         (with_frame LIdle (Some (task_id ev)) (Some r)
            (emit Loop [Received a ev] ts)))
| Step_construct a ev ts :
    loop ts = LIdle → _stop_event ts = Some false →
    _runners ts !! task_id ev = None →
    Step (LRecv a ev) ts
      (with_frame (LAwaitInit a ev) (Some (task_id ev))
         (Some (new_runner (task_id ev) ts))
         (with_next_inst (S (next_inst ts))
            (emit Loop [Received a ev; Construct (new_runner (task_id ev) ts);
                        Call (init (new_runner (task_id ev) ts))] ts)))
| Step_register a ev tid r b ts :
    loop ts = LAwaitInit a ev →
    cell_task_id ts = Some tid → cell_runner ts = Some r →
    Step (LInit (Returns b)) ts
      (start_soon a ev
         (with_frame LIdle (Some tid) (Some r)
            (emit Loop [SetItem tid r; Log DEBUG (MsgCreate (task_id ev))]
               (with_runners (<[tid := r]> (_runners ts)) ts))))
| Step_init_raises a ev e ts :
    loop ts = LAwaitInit a ev →
    Step (LInit (Raises e)) ts
      (with_frame (LFailed (Raised e)) (cell_task_id ts) (cell_runner ts) ts)
| Step_init_cancelled a ev ts :
    loop ts = LAwaitInit a ev →
    Step (LInit Cancelled) ts
      (with_frame (LFailed RaisedCancelled) (cell_task_id ts) (cell_runner ts) ts)
| Step_enter h hd r ts :
    handlers ts !! h = Some hd → h_pc hd = HReady → cell_runner ts = Some r →
    Step (LStartHandler h) ts (apply_hstep h hd (enter_process r hd ts) ts)
| Step_resume h hd resp s ts :
    handlers ts !! h = Some hd → resume_handler ts hd resp = Some s →
    Step (LResume h resp) ts (apply_hstep h hd s ts)
| Step_stop ts :
    Step LStop ts (stop ts)
| Step_exit ts :
    leaving ts = true →
    Step LExit ts (with_frame LNotStarted None None (with_lifecycle None None ts)).

(** The state a schedule leads to from [default_task_system] (that state
    itself if the schedule cannot be run). *)
Definition after (ls : list label) : TaskSystem :=
  default default_task_system (run ls default_task_system).

(** ** The process-wide accessor (lines 134-146) *)

Section Singleton.
(** [A]: the references to task system objects. *)
Context {A : Type}.

(** The module variable [_default_task_system]. *)
Definition module_state := option A.

Definition get_task_system (g : module_state) : exn + A :=
  match g with
  | Some ts => inr ts
  | None => inl (AssertionError "TaskSystem has not been set.")
  end.

Definition set_task_system (task_system : A) (g : module_state) : module_state :=
  Some task_system.
End Singleton.

(** ** Reading schedules and traces *)

(** The handler a label schedules. *)
Definition scheduled (l : label) : option nat :=
  match l with
  | LStartHandler h | LResume h _ => Some h
  | _ => None
  end.

(** The answers given to handler [h] in a schedule. *)
Fixpoint responses_of (h : nat) (ls : list label) : list response :=
  match ls with
  | [] => []
  | LResume h' resp :: ls' =>
      if decide (h' = h) then resp :: responses_of h ls' else responses_of h ls'
  | _ :: ls' => responses_of h ls'
  end.

(** What handler [h] did, in order. *)
Definition htrace (h : nat) (tr : list (actor * action)) : list action :=
  omap (λ p, if decide (p.1 = Handler h) then Some p.2 else None) tr.

Arguments htrace : simpl never.

(** The runners the loop has constructed, in order. *)
Definition constructed (tr : list (actor * action)) : list TaskRunner :=
  omap (λ p, match p.2 with Construct r => Some r | _ => None end) tr.

Definition pc_of (h : nat) (ts : TaskSystem) : option hpc :=
  h_pc <$> handlers ts !! h.

(** The handler is suspended at an [await]. *)
Definition suspended (pc : hpc) : bool :=
  match pc with HReady | HDone _ => false | _ => true end.

Definition is_ack (a : action) : bool :=
  match a with Call (ack _) => true | _ => false end.
Definition is_no_ack (a : action) : bool :=
  match a with Call (no_ack _) => true | _ => false end.
Definition is_sleep (a : action) : bool :=
  match a with Call (sleep _) => true | _ => false end.
Definition is_write (a : action) : bool :=
  match a with SetItem _ _ | DelItem _ => true | _ => false end.
Definition is_cancel_scope (a : action) : bool :=
  match a with CancelScope => true | _ => false end.
Definition is_task_error (e : exn) : bool :=
  match e with TaskError _ => true | _ => false end.

Definition count (p : action → bool) (acts : list action) : nat :=
  length (List.filter p acts).

(** The calls of [cancel_scope.cancel()] so far. *)
Definition scope_cancels (ts : TaskSystem) : nat :=
  count is_cancel_scope (map snd (trace ts)).

(** The object without the record of what was done to it. *)
Definition erase_trace (ts : TaskSystem) : TaskSystem :=
  {| _retry_delay := _retry_delay ts; _distributed := _distributed ts;
     _task_name := _task_name ts; _stop_event := _stop_event ts; _tg := _tg ts;
     _runners := _runners ts; loop := loop ts;
     cell_task_id := cell_task_id ts; cell_runner := cell_runner ts;
     handlers := handlers ts; next_inst := next_inst ts; trace := [] |}.

(** ** The paths of the handler after [process_event] *)

(** How the handler ends when its last [await] is answered. *)
Definition answered (resp : response) : outcome :=
  match resp with
  | Returns _ => Finished
  | Raises e => Raised e
  | Cancelled => RaisedCancelled
  end.

(** [process_event] raised a [TaskError] with [retry] set (lines 95-102). *)
Definition retry_actions (ts : TaskSystem) (hd : handler) : list action :=
  [Log ERROR (MsgFailed (task_id (h_event hd)) (kind (h_event hd)));
   Enter (fail_after (_retry_delay ts + 5) true);
   Log DEBUG (MsgRetry (h_event hd) (task_id (h_event hd)));
   Call (sleep (_retry_delay ts));
   Call (no_ack (h_ack_id hd));
   Exit].

(** [process_event] raised another exception [e] (lines 110-115). *)
Definition unknown_actions (hd : handler) (e : exn) : list action :=
  [Log ERROR (MsgTraceback e);
   Log ERROR (MsgUnknownError (task_id (h_event hd)) (kind (h_event hd)));
   Enter (fail_after 5 true);
   Call (no_ack (h_ack_id hd));
   Exit].

(** The handler was cancelled in [process_event] (lines 91-93). *)
Definition cancelled_actions (hd : handler) : list action :=
  [Enter (fail_after 5 true); Call (no_ack (h_ack_id hd)); Exit].

(** ** Invariants *)

(** Every entry holds a runner of its key, no instance is registered under
    two keys, and while the loop waits for [init] the new runner is bound to
    [runner], its key is free and its instance is not registered. *)
Record registry_ok (ts : TaskSystem) : Prop := {
  ok_key : ∀ k r, _runners ts !! k = Some r →
             runner_task_id r = k ∧ (runner_inst r < next_inst ts)%nat;
  ok_inst : ∀ k1 k2 r1 r2,
      _runners ts !! k1 = Some r1 → _runners ts !! k2 = Some r2 →
      runner_inst r1 = runner_inst r2 → k1 = k2;
  ok_init : ∀ a ev, loop ts = LAwaitInit a ev →
      _runners ts !! task_id ev = None ∧
      cell_task_id ts = Some (task_id ev) ∧
      ∃ r, cell_runner ts = Some r ∧ runner_task_id r = task_id ev ∧
           (runner_inst r < next_inst ts)%nat ∧
           ∀ k r', _runners ts !! k = Some r' → runner_inst r' ≠ runner_inst r
}.

(** Up to its first answer a handler has done nothing but call
    [process_event], and a handler that does not exist yet has done nothing. *)
Definition fresh_traces (ts : TaskSystem) : Prop :=
  ∀ h,
    match handlers ts !! h with
    | Some hd =>
        match h_pc hd with
        | HReady => htrace h (trace ts) = []
        | HProcess r => htrace h (trace ts) = [Call (process_event r (h_event hd))]
        | _ => True
        end
    | None => htrace h (trace ts) = []
    end.

(** ** Schedules *)

Definition ev1 : TaskEvent := {| kind := "TaskCreated"; task_id := 1 |}.
Definition ev2 : TaskEvent := {| kind := "TaskCreated"; task_id := 2 |}.

(** The runners the loop constructs for them, and their handlers once they
    are suspended in [process_event]. *)
Definition runner1 : TaskRunner := new_runner 1 default_task_system.
Definition runner2 : TaskRunner :=
  {| runner_task_id := 2; runner_task_name := "sd_lora_inference";
     runner_distributed := false; runner_inst := 1 |}.

Definition handler1 : handler :=
  {| h_ack_id := 101; h_event := ev1; h_pc := HProcess runner1 |}.
Definition handler2 : handler :=
  {| h_ack_id := 102; h_event := ev2; h_pc := HProcess runner2 |}.

(** One event of one task is dispatched and [process_event] answers. *)
Definition one_in_flight (resp : response) : list label :=
  [LStart; LRecv 101 ev1; LInit (Returns false); LStartHandler 0; LResume 0 resp].

(** Two events of two tasks are received and dispatched; each handler is
    entered as soon as it is launched, and both are suspended in
    [process_event] when the second event has been dispatched. *)
Definition two_in_flight : list label :=
  [LStart;
   LRecv 101 ev1; LInit (Returns false); LStartHandler 0;
   LRecv 102 ev2; LInit (Returns false); LStartHandler 1].

(** A handler has met a retryable failure and sleeps; then [stop] is called. *)
Definition retry_then_stop : list label :=
  two_in_flight ++ [LResume 0 (Raises (TaskError true)); LStop].

(** ** The history of a handler *)

Definition is_process (a : action) : bool :=
  match a with Call (process_event _ _) => true | _ => false end.

(** The calls a handler made on the queue, in order. *)
Definition queue_calls (acts : list action) : list call :=
  omap (λ a, match a with
             | Call (ack i) => Some (ack i)
             | Call (no_ack i) => Some (no_ack i)
             | _ => None
             end) acts.

(** The calls on the queue that a handler with delivery handle [i] can have
    made when it is at [pc]. *)
Definition allowed_calls (i : Z) (pc : hpc) : list (list call) :=
  match pc with
  | HReady | HProcess _ => [[]]
  | HAck => [[ack i]]
  | HRetrySleep => [[]; [ack i]]
  | HFinalAck => [[ack i]; [ack i; ack i]]
  | HCancelNoAck => [[no_ack i]]
  | HRetryNoAck | HUnknownNoAck => [[no_ack i]; [ack i; no_ack i]]
  | HDone Finished =>
      [[ack i]; [no_ack i]; [ack i; no_ack i]; [ack i; ack i]]
  | HDone RaisedCancelled => [[no_ack i]]
  | HDone (Raised _) =>
      [[]; [ack i]; [no_ack i]; [ack i; no_ack i]; [ack i; ack i]]
  end.

(** [Q] holds of every handler and what it has done; a handler that has not
    been launched has done nothing. *)
Definition handler_inv (Q : handler → list action → Prop) (ts : TaskSystem) : Prop :=
  ∀ h,
    match handlers ts !! h with
    | Some hd => Q hd (htrace h (trace ts))
    | None => htrace h (trace ts) = []
    end.

Definition calls_allowed (hd : handler) (acts : list action) : Prop :=
  queue_calls acts ∈ allowed_calls (h_ack_id hd) (h_pc hd).

Definition processed_once (hd : handler) (acts : list action) : Prop :=
  match h_pc hd with
  | HReady => List.filter is_process acts = []
  | HProcess r => List.filter is_process acts = [Call (process_event r (h_event hd))]
  | _ => ∃ r, List.filter is_process acts = [Call (process_event r (h_event hd))]
  end.

(** The answers a handler at [pc] can still take. *)
Definition rank (pc : hpc) : nat :=
  match pc with
  | HReady | HProcess _ => 4
  | HAck => 3
  | HRetrySleep => 2
  | HFinalAck | HCancelNoAck | HRetryNoAck | HUnknownNoAck => 1
  | HDone _ => 0
  end.

(** [start] has been entered and not left exactly when the stop event and
    the task group are there. *)
Definition lifecycle_ok (ts : TaskSystem) : Prop :=
  match loop ts with
  | LNotStarted => _stop_event ts = None ∧ _tg ts = None
  | _ => is_Some (_stop_event ts) ∧ is_Some (_tg ts)
  end.

(** The handler's actions when [process_event] returns [False] and [ack]
    returns (lines 82-89). *)
Definition unfinished_actions (hd : handler) : list action :=
  [Enter (fail_after 5 true);
   Call (ack (h_ack_id hd));
   Log DEBUG (MsgSuccess (task_id (h_event hd)) (kind (h_event hd)));
   Exit].

(** The handler's actions when [process_event] returns [False] and [ack]
    raises an exception [e] that is not a [TaskError] (lines 82-86 and
    109-115). *)
Definition ack_failed_actions (hd : handler) (e : exn) : list action :=
  [Enter (fail_after 5 true);
   Call (ack (h_ack_id hd));
   Exit;
   Log ERROR (MsgTraceback e);
   Log ERROR (MsgUnknownError (task_id (h_event hd)) (kind (h_event hd)));
   Enter (fail_after 5 true);
   Call (no_ack (h_ack_id hd));
   Exit].

(** A step that neither takes an event from the queue, nor resumes a
    handler other than [h], nor enters or leaves [start]. *)
Definition quiet (h : nat) (l : label) : bool :=
  match l with
  | LRecv _ _ | LStart | LExit => false
  | LResume h' _ => bool_decide (h' = h)
  | LInit _ | LStartHandler _ | LStop => true
  end.

(** The handler's actions when [process_event] returns [True] while
    [task_id] is [tid] and has an entry, and [ack] returns (lines 82-89). *)
Definition finished_actions (hd : handler) (tid : Z) : list action :=
  [Enter (fail_after 5 true);
   DelItem tid;
   Log DEBUG (MsgFinished (task_id (h_event hd)));
   Call (ack (h_ack_id hd));
   Log DEBUG (MsgSuccess (task_id (h_event hd)) (kind (h_event hd)));
   Exit].

(** The handler's actions when [process_event] raises a [TaskError] without
    [retry], [ack] returns, and [task_id] is [tid] and has an entry (lines
    95-108). *)
Definition failed_actions (hd : handler) (tid : Z) : list action :=
  [Log ERROR (MsgFailed (task_id (h_event hd)) (kind (h_event hd)));
   Enter (fail_after 5 true);
   Call (ack (h_ack_id hd));
   DelItem tid;
   Log DEBUG (MsgFinishedWithError (task_id (h_event hd)));
   Exit].

(** The deliveries the loop has taken from the queue, in order. *)
Definition received (tr : list (actor * action)) : list (Z * TaskEvent) :=
  omap (λ p, match p with
             | (Loop, Received a ev) => Some (a, ev)
             | _ => None
             end) tr.

(** The deliveries that have a handler, in the order of launching, and the
    delivery whose runner is in [init]. *)
Definition launched (ts : TaskSystem) : list (Z * TaskEvent) :=
  (λ hd, (h_ack_id hd, h_event hd)) <$> handlers ts.

Definition pending (ts : TaskSystem) : list (Z * TaskEvent) :=
  match loop ts with LAwaitInit a ev => [(a, ev)] | _ => [] end.

Definition launched_ok (ts : TaskSystem) : Prop :=
  launched ts ++ pending ts `sublist_of` received (trace ts).

(** * Properties *)

(** ** The trace and the handlers under one step *)

Lemma htrace_app h tr1 tr2 : htrace h (tr1 ++ tr2) = htrace h tr1 ++ htrace h tr2.
Proof. apply omap_app. Qed.

Lemma htrace_own h acts : htrace h (map (pair (Handler h)) acts) = acts.
Proof.
  induction acts as [|a acts IH]; [done|].
  unfold htrace in *. simpl. rewrite decide_True by done. simpl. by f_equal.
Qed.

Lemma htrace_foreign h who acts :
  who ≠ Handler h → htrace h (map (pair who) acts) = [].
Proof.
  intros Hne. induction acts as [|a acts IH]; [done|].
  unfold htrace in *. simpl. by rewrite decide_False.
Qed.

Lemma apply_hstep_handlers h hd s ts :
  handlers (apply_hstep h hd s ts) = <[h := set_pc (hs_pc s) hd]> (handlers ts).
Proof. done. Qed.

Lemma apply_hstep_trace h hd s ts :
  trace (apply_hstep h hd s ts) = trace ts ++ map (pair (Handler h)) (hs_acts s).
Proof. done. Qed.

(** [step] and [Step] are one relation. *)
Lemma step_Step l ts ts' : step l ts = Some ts' ↔ Step l ts ts'.
Proof.
  split.
  - intros Hstep. destruct l as [| a ev | resp | h | h resp | |]; cbn in Hstep.
    + destruct (loop ts) eqn:?; try done. unfold start_enter in Hstep.
      destruct (_stop_event ts) eqn:?, (_tg ts) eqn:?; simplify_eq.
      by constructor.
    + destruct (loop ts) eqn:?; try done.
      destruct (_stop_event ts) as [[]|] eqn:?; try done. simplify_eq.
      unfold receive. destruct (_runners ts !! task_id ev) eqn:?; by constructor.
    + unfold init_done in Hstep. destruct (loop ts) eqn:?; try done.
      destruct resp; simplify_eq; [|by econstructor..].
      unfold register in Hstep.
      destruct (cell_task_id ts) eqn:?, (cell_runner ts) eqn:?; simplify_eq.
      by econstructor.
    + unfold start_handler in Hstep.
      destruct (handlers ts !! h) as [hd|] eqn:?; [|done].
      destruct (h_pc hd) eqn:?; try done.
      destruct (cell_runner ts) eqn:?; simplify_eq. by constructor.
    + unfold resume in Hstep.
      destruct (handlers ts !! h) as [hd|] eqn:?; [|done].
      destruct (resume_handler ts hd resp) eqn:?; simplify_eq. by constructor.
    + simplify_eq. constructor.
    + unfold start_exit in Hstep.
      destruct (leaving ts) eqn:?; simplify_eq. by constructor.
  - destruct 1; cbn;
      unfold start_enter, receive, init_done, register, start_handler, resume,
        start_exit;
      repeat match goal with H : _ = _ |- _ => rewrite H; clear H end; done.
Qed.

(** [stop] writes the two lifecycle attributes and the trace. *)
Lemma stop_frame ts :
  ∃ acts, count is_write acts = 0%nat ∧
    stop ts = emit Caller acts
                (with_lifecycle (_stop_event (stop ts)) (_tg (stop ts)) ts).
Proof.
  destruct ts as [d di n se tg rs lp ct cr hs ni tr]. unfold stop. cbn.
  destruct se as [b|], tg as [[]|]; cbn;
    [exists [EventSet] | exists [EventSet; CancelScope] | exists [EventSet]
    | exists [] | exists [CancelScope] | exists []];
    (split; [done|]); unfold emit, with_lifecycle; cbn; f_equal;
    by rewrite <- ?app_assoc, ?app_nil_r.
Qed.

(** The steps of the other tasks leave the part of the trace of handler
    [h] as it is. *)
Lemma step_htrace_foreign l ts ts' h :
  step l ts = Some ts' → scheduled l ≠ Some h →
  htrace h (trace ts') = htrace h (trace ts).
Proof.
  intros Hstep%step_Step Hl.
  destruct Hstep; try destruct (stop_frame ts) as (acts & _ & ->);
    cbn -[map] in *;
    rewrite ?htrace_app, ?htrace_foreign, ?app_nil_r by congruence; done.
Qed.

(** A step appends handlers and touches only the scheduled one. *)
Lemma step_handlers l ts ts' h :
  step l ts = Some ts' → scheduled l ≠ Some h →
  handlers ts' !! h = handlers ts !! h ∨
  (handlers ts !! h = None ∧ ∃ a ev,
      handlers ts' !! h = Some {| h_ack_id := a; h_event := ev; h_pc := HReady |}).
Proof.
  assert (∀ (hs : list handler) hd,
      (hs ++ [hd]) !! h = hs !! h ∨ (hs !! h = None ∧ (hs ++ [hd]) !! h = Some hd))
    as Happ.
  { intros hs hd. destruct (hs !! h) as [hd'|] eqn:Hh.
    - left. by apply lookup_app_l_Some.
    - apply lookup_ge_None in Hh.
      destruct (decide (h = length hs)) as [->|].
      + right. split; [done|]. rewrite lookup_app_r by done.
        by rewrite Nat.sub_diag.
      + left. apply lookup_ge_None. rewrite length_app. cbn. lia. }
  intros Hstep%step_Step Hl.
  destruct Hstep; try destruct (stop_frame ts) as (acts & _ & ->);
    cbn in *; try (by left).
  - destruct (Happ (handlers ts) {| h_ack_id := a; h_event := ev; h_pc := HReady |})
      as [?|[? ?]]; eauto.
  - destruct (Happ (handlers ts) {| h_ack_id := a; h_event := ev; h_pc := HReady |})
      as [?|[? ?]]; eauto.
  - left. apply list_lookup_insert_ne. congruence.
  - left. apply list_lookup_insert_ne. congruence.
Qed.

(** A step of another task leaves a handler and its part of the trace as
    they are. *)
Lemma step_frame l ts ts' h hd :
  step l ts = Some ts' → scheduled l ≠ Some h →
  handlers ts !! h = Some hd →
  handlers ts' !! h = Some hd ∧ htrace h (trace ts') = htrace h (trace ts).
Proof.
  intros Hstep Hl Hh. split; [|by eapply step_htrace_foreign].
  destruct (step_handlers _ _ _ h Hstep Hl) as [-> | [Hnone _]]; congruence.
Qed.

(** The configuration is fixed at construction. *)
Lemma step_retry_delay l ts ts' :
  step l ts = Some ts' → _retry_delay ts' = _retry_delay ts.
Proof.
  intros Hstep%step_Step.
  by destruct Hstep; try destruct (stop_frame ts) as (acts & _ & ->).
Qed.

(** What every step preserves holds along every schedule. *)
Section Preserved.
Variable P : TaskSystem → Prop.
Hypothesis P_step : ∀ l ts ts', step l ts = Some ts' → P ts → P ts'.

Lemma run_preserves ls ts ts' : run ls ts = Some ts' → P ts → P ts'.
Proof.
  revert ts. induction ls as [|l ls IH]; intros ts Hrun HP; cbn in Hrun.
  - by simplify_eq.
  - destruct (step l ts) as [ts1|] eqn:Hstep; [|done]. eauto.
Qed.
End Preserved.

Lemma run_retry_delay ls ts ts' :
  run ls ts = Some ts' → _retry_delay ts' = _retry_delay ts.
Proof.
  intros Hrun.
  apply (run_preserves (λ t, _retry_delay t = _retry_delay ts)) with ls ts;
    [|done..].
  intros l t t' Hstep <-. by eapply step_retry_delay.
Qed.

Lemma apply_hstep_lookup h hd s ts :
  handlers ts !! h = Some hd →
  handlers (apply_hstep h hd s ts) !! h = Some (set_pc (hs_pc s) hd).
Proof.
  intros Hh. rewrite apply_hstep_handlers.
  apply list_lookup_insert_eq. by eapply lookup_lt_Some.
Qed.

Lemma apply_hstep_htrace h hd s ts :
  htrace h (trace (apply_hstep h hd s ts)) = htrace h (trace ts) ++ hs_acts s.
Proof. by rewrite apply_hstep_trace, htrace_app, htrace_own. Qed.

(** A handler that has been entered is only moved by its own answers. *)
Lemma run_idle ls ts ts' h hd :
  run ls ts = Some ts' → handlers ts !! h = Some hd → h_pc hd ≠ HReady →
  responses_of h ls = [] →
  handlers ts' !! h = Some hd ∧ htrace h (trace ts') = htrace h (trace ts).
Proof.
  revert ts. induction ls as [|l ls IH]; intros ts Hrun Hh Hpc Hresp; cbn in Hrun.
  - by simplify_eq.
  - destruct (step l ts) as [ts1|] eqn:Hstep; [|done].
    destruct (decide (scheduled l = Some h)) as [Hl|Hl].
    + destruct l; cbn in Hl; simplify_eq.
      * cbn in Hstep. unfold start_handler in Hstep. rewrite Hh in Hstep.
        destruct (h_pc hd); try done.
      * cbn in Hresp. by rewrite decide_True in Hresp.
    + destruct (step_frame _ _ _ _ _ Hstep Hl Hh) as [Hh1 Htr1].
      assert (responses_of h ls = []) as Hresp'.
      { destruct l; cbn in Hresp; try done. case_decide; [|done].
        cbn in Hl. congruence. }
      destruct (IH _ Hrun Hh1 Hpc Hresp') as [? ?]. split; [done|congruence].
Qed.

(** The next answer in the schedule resumes the handler where it is
    suspended; the steps of the other tasks before it change neither the
    handler nor its part of the trace. *)
Lemma run_answer ls ts ts' h hd resp rest :
  run ls ts = Some ts' → handlers ts !! h = Some hd → h_pc hd ≠ HReady →
  responses_of h ls = resp :: rest →
  ∃ ts1 s ts2 ls2,
    resume_handler ts1 hd resp = Some s ∧
    _retry_delay ts1 = _retry_delay ts ∧
    handlers ts2 !! h = Some (set_pc (hs_pc s) hd) ∧
    htrace h (trace ts2) = htrace h (trace ts) ++ hs_acts s ∧
    _runners ts2 = hs_runners s ∧
    run ls2 ts2 = Some ts' ∧ responses_of h ls2 = rest.
Proof.
  revert ts. induction ls as [|l ls IH]; intros ts Hrun Hh Hpc Hresp; [done|].
  cbn in Hrun. destruct (step l ts) as [ts1|] eqn:Hstep; [|done].
  destruct (decide (scheduled l = Some h)) as [Hl|Hl].
  - destruct l; cbn in Hl; simplify_eq.
    + cbn in Hstep. unfold start_handler in Hstep. rewrite Hh in Hstep.
      destruct (h_pc hd); try done.
    + cbn in Hresp. rewrite decide_True in Hresp by done. simplify_eq.
      cbn in Hstep. unfold resume in Hstep. rewrite Hh in Hstep.
      destruct (resume_handler ts hd resp) as [s|] eqn:Hs; [|done]. simplify_eq.
      exists ts, s, (apply_hstep h hd s ts), ls.
      split_and!; try done.
      * by apply apply_hstep_lookup.
      * apply apply_hstep_htrace.
  - destruct (step_frame _ _ _ _ _ Hstep Hl Hh) as [Hh1 Htr1].
    assert (responses_of h ls = resp :: rest) as Hresp'.
    { destruct l; cbn in Hresp; try done. case_decide; [|done].
      cbn in Hl. congruence. }
    destruct (IH _ Hrun Hh1 Hpc Hresp')
      as (ts1' & s & ts2 & ls2 & ? & ? & ? & ? & ? & ? & ?).
    exists ts1', s, ts2, ls2. split_and!; try done.
    + etrans; [eassumption|]. by eapply step_retry_delay.
    + congruence.
Qed.

(** Feed the next answer of the schedule to the handler. *)
Ltac next_answer Hrun t s Hs Hd Hh Htr :=
  eapply run_answer in Hrun
    as (t & s & ? & ? & Hs & Hd & Hh & Htr & _ & Hrun & ?);
  [| done | first [done | congruence] | done].

(** ** A handler before its first answer *)

Lemma resume_handler_pc ts hd resp s :
  resume_handler ts hd resp = Some s →
  hs_pc s ≠ HReady ∧ ∀ r, hs_pc s ≠ HProcess r.
Proof.
  intros Hs. unfold resume_handler in Hs.
  destruct resp as [[]|e|]; destruct (h_pc hd) eqn:Hpc; cbn in Hs;
    repeat case_match; simplify_eq; try done;
    unfold except_clauses; repeat case_match; done.
Qed.

Lemma fresh_traces_step l ts ts' :
  step l ts = Some ts' → fresh_traces ts → fresh_traces ts'.
Proof.
  intros Hstep Hf h. specialize (Hf h).
  destruct (decide (scheduled l = Some h)) as [Hl|Hl].
  - destruct l; cbn in Hl; simplify_eq; cbn in Hstep.
    + unfold start_handler in Hstep.
      destruct (handlers ts !! h) as [hd|] eqn:Hh; [|done].
      destruct (h_pc hd) eqn:Hpc; try done.
      destruct (cell_runner ts) as [r|]; simplify_eq.
      rewrite apply_hstep_lookup, apply_hstep_htrace by done. cbn.
      by rewrite Hf.
    + unfold resume in Hstep.
      destruct (handlers ts !! h) as [hd|] eqn:Hh; [|done].
      destruct (resume_handler ts hd resp) as [s|] eqn:Hs; simplify_eq.
      rewrite apply_hstep_lookup by done. cbn.
      destruct (resume_handler_pc _ _ _ _ Hs) as [Hn1 Hn2].
      destruct (hs_pc s) as [|r'| | | | | | |]; try done.
      by destruct (Hn2 r').
  - rewrite (step_htrace_foreign _ _ _ _ Hstep Hl).
    destruct (step_handlers _ _ _ h Hstep Hl) as [-> | [Hnone (a & ev & ->)]];
      [done|].
    cbn. by rewrite Hnone in Hf.
Qed.

Lemma fresh_traces_run ls ts ts' :
  run ls ts = Some ts' → fresh_traces ts → fresh_traces ts'.
Proof. apply run_preserves, fresh_traces_step. Qed.

(** In every state reached from the construction, a handler suspended in
    [process_event] has done nothing but call it. *)
Lemma handler_trace_in_process_event d dist name ls ts h hd r :
  run ls (new_task_system d dist name) = Some ts →
  handlers ts !! h = Some hd → h_pc hd = HProcess r →
  htrace h (trace ts) = [Call (process_event r (h_event hd))].
Proof.
  intros Hrun Hh Hpc.
  assert (fresh_traces (new_task_system d dist name)) as H0 by (by intros h').
  pose proof (fresh_traces_run _ _ _ Hrun H0 h) as Hf.
  by rewrite Hh, Hpc in Hf.
Qed.

(** ** The registry is written only where the trace says so *)

Lemma resume_handler_writes ts hd resp s :
  resume_handler ts hd resp = Some s →
  count is_write (hs_acts s) = 0%nat → hs_runners s = _runners ts.
Proof.
  intros Hs Hw. unfold resume_handler in Hs.
  destruct resp as [[]|e|]; destruct (h_pc hd) eqn:Hpc; cbn in Hs;
    repeat case_match; simplify_eq; try done;
    unfold except_clauses in *; repeat case_match; simplify_eq; done.
Qed.

Lemma step_writes_logged l ts ts' :
  step l ts = Some ts' →
  ∃ who acts, trace ts' = trace ts ++ map (pair who) acts ∧
    (count is_write acts = 0%nat → _runners ts' = _runners ts).
Proof.
  intros Hstep%step_Step. destruct Hstep.
  - exists Loop, []. cbn. by rewrite app_nil_r.
  - exists Loop, [Received a ev; StartSoon (length (handlers ts))].
    cbn. by rewrite <- app_assoc.
  - by eexists Loop, [_; _; _].
  - exists Loop, [SetItem tid r; Log DEBUG (MsgCreate (task_id ev));
                  StartSoon (length (handlers ts))].
    cbn. by rewrite <- app_assoc.
  - exists Loop, []. cbn. by rewrite app_nil_r.
  - exists Loop, []. cbn. by rewrite app_nil_r.
  - by eexists (Handler h), [_].
  - exists (Handler h), (hs_acts s). split; [done|].
    intros Hw. cbn. by eapply resume_handler_writes.
  - destruct (stop_frame ts) as (acts & Hw & ->). by exists Caller, acts.
  - exists Loop, []. cbn. by rewrite app_nil_r.
Qed.

Lemma run_writes_logged ls ts ts' :
  run ls ts = Some ts' →
  ∃ tr, trace ts' = trace ts ++ tr ∧
    (count is_write (map snd tr) = 0%nat → _runners ts' = _runners ts).
Proof.
  revert ts. induction ls as [|l ls IH]; intros ts Hrun; cbn in Hrun.
  - simplify_eq. exists []. by rewrite app_nil_r.
  - destruct (step l ts) as [ts1|] eqn:Hstep; [|done].
    destruct (step_writes_logged _ _ _ Hstep) as (who & acts & Htr & Hw).
    destruct (IH _ Hrun) as (tr & Htr' & Hw').
    exists (map (pair who) acts ++ tr). split.
    + by rewrite Htr', Htr, <- app_assoc.
    + unfold count in *. rewrite map_app, List.filter_app, length_app.
      rewrite map_map, map_id. intros ?.
      rewrite Hw', Hw by lia. done.
Qed.

(** ** Retryable failure (lines 94-102) *)

(** C3.  A handler is suspended in [process_event]; in a schedule, whatever
    the other tasks do in between, [process_event] raises a [TaskError] with
    [retry] set, the sleep returns, and [no_ack] is answered.  Then all the
    handler does is: log the failure, sleep for the configured retry delay
    and, once the sleep has returned, call [no_ack] on its delivery handle.
    That is one call of [no_ack], after the sleep, no call of [ack] and no
    write to the registry; the handler ends as [no_ack] answered. *)
Theorem retryable_failure_sleeps_then_no_ack ts ts' h hd r ls b resp :
  handlers ts !! h = Some hd → h_pc hd = HProcess r →
  run ls ts = Some ts' →
  responses_of h ls = [Raises (TaskError true); Returns b; resp] →
  htrace h (trace ts') = htrace h (trace ts) ++ retry_actions ts hd ∧
  List.filter (λ a, is_sleep a || is_no_ack a) (retry_actions ts hd)
    = [Call (sleep (_retry_delay ts)); Call (no_ack (h_ack_id hd))] ∧
  count is_ack (retry_actions ts hd) = 0%nat ∧
  count is_write (retry_actions ts hd) = 0%nat ∧
  pc_of h ts' = Some (HDone (answered resp)).
Proof.
  intros Hh Hpc Hrun Hresp.
  next_answer Hrun t1 s1 Hs1 Hd1 Hh2 Htr2.
  unfold resume_handler in Hs1. rewrite Hpc in Hs1. cbn in Hs1. simplify_eq.
  cbn in Hh2, Htr2.
  next_answer Hrun t3 s3 Hs3 Hd3 Hh4 Htr4.
  cbn in Hs3. simplify_eq. cbn in Hh4, Htr4.
  next_answer Hrun t5 s5 Hs5 Hd5 Hh6 Htr6.
  assert (hs_pc s5 = HDone (answered resp) ∧ hs_acts s5 = [Exit]) as [Hpc5 Hacts5].
  { unfold resume_handler in Hs5. cbn in Hs5.
    destruct resp; cbn in Hs5; by simplify_eq. }
  eapply run_idle in Hrun as [Hh' Htr']; [| done | by rewrite Hpc5 | done].
  split_and!; try done.
  - rewrite Htr', Htr6, Htr4, Htr2, Hacts5, Hd1. unfold retry_actions.
    by rewrite <- !app_assoc.
  - unfold pc_of. rewrite Hh'. cbn. by rewrite Hpc5.
Qed.

(** ** Unclassified failure (lines 109-115) *)

(** C5.  A handler is suspended in [process_event]; in a schedule, whatever
    the other tasks do in between, [process_event] raises an exception that
    is not a [TaskError] (and is not the cancellation), and [no_ack] is
    answered.  Then all the handler does is: log the exception and an error
    message at ERROR level and call [no_ack] on its delivery handle, with no
    sleep before the call.  That is one call of [no_ack], no call of [ack]
    and no write to the registry; the handler ends as [no_ack] answered. *)
Theorem unknown_failure_no_ack_at_once ts ts' h hd r ls e resp :
  handlers ts !! h = Some hd → h_pc hd = HProcess r →
  is_task_error e = false →
  run ls ts = Some ts' →
  responses_of h ls = [Raises e; resp] →
  htrace h (trace ts') = htrace h (trace ts) ++ unknown_actions hd e ∧
  List.filter (λ a, is_sleep a || is_no_ack a) (unknown_actions hd e)
    = [Call (no_ack (h_ack_id hd))] ∧
  count is_ack (unknown_actions hd e) = 0%nat ∧
  count is_write (unknown_actions hd e) = 0%nat ∧
  Log ERROR (MsgUnknownError (task_id (h_event hd)) (kind (h_event hd)))
    ∈ unknown_actions hd e ∧
  pc_of h ts' = Some (HDone (answered resp)).
Proof.
  intros Hh Hpc He Hrun Hresp.
  next_answer Hrun t1 s1 Hs1 Hd1 Hh2 Htr2.
  assert (s1 = {| hs_pc := HUnknownNoAck;
                  hs_acts := [Log ERROR (MsgTraceback e);
                              Log ERROR (MsgUnknownError (task_id (h_event hd))
                                           (kind (h_event hd)));
                              Enter (fail_after 5 true);
                              Call (no_ack (h_ack_id hd))];
                  hs_runners := _runners t1 |}) as ->.
  { unfold resume_handler in Hs1. rewrite Hpc in Hs1. cbn in Hs1.
    destruct e; cbn in He; by simplify_eq. }
  cbn in Hh2, Htr2.
  next_answer Hrun t3 s3 Hs3 Hd3 Hh4 Htr4.
  assert (hs_pc s3 = HDone (answered resp) ∧ hs_acts s3 = [Exit]) as [Hpc3 Hacts3].
  { unfold resume_handler in Hs3. cbn in Hs3.
    destruct resp; cbn in Hs3; by simplify_eq. }
  eapply run_idle in Hrun as [Hh' Htr']; [| done | by rewrite Hpc3 | done].
  split_and!; try done.
  - rewrite Htr', Htr4, Htr2, Hacts3. unfold unknown_actions.
    by rewrite <- !app_assoc.
  - unfold unknown_actions. set_solver.
  - unfold pc_of. rewrite Hh'. cbn. by rewrite Hpc3.
Qed.

(** ** Cancellation (lines 90-93) *)

(** C6.  A handler is suspended in [process_event]; in a schedule, whatever
    the other tasks do in between, the cancellation of the task group is
    delivered to it there, and [no_ack] is answered.  Then all the handler
    does is call [no_ack] on its delivery handle, once, inside a
    [fail_after(5, shield=True)] block: no call of [ack], no write to the
    registry.  When [no_ack] has returned the handler raises the
    cancellation again; if [no_ack] raises, that exception leaves the
    handler.  In no case does the handler end normally. *)
Theorem cancelled_no_ack_then_reraise ts ts' h hd r ls resp :
  handlers ts !! h = Some hd → h_pc hd = HProcess r →
  run ls ts = Some ts' →
  responses_of h ls = [Cancelled; resp] →
  htrace h (trace ts') = htrace h (trace ts) ++ cancelled_actions hd ∧
  count is_no_ack (cancelled_actions hd) = 1%nat ∧
  count is_ack (cancelled_actions hd) = 0%nat ∧
  count is_write (cancelled_actions hd) = 0%nat ∧
  pc_of h ts' =
    Some (HDone (match resp with Raises e => Raised e | _ => RaisedCancelled end)).
Proof.
  intros Hh Hpc Hrun Hresp.
  next_answer Hrun t1 s1 Hs1 Hd1 Hh2 Htr2.
  unfold resume_handler in Hs1. rewrite Hpc in Hs1.
  cbn in Hs1. simplify_eq. cbn in Hh2, Htr2.
  next_answer Hrun t3 s3 Hs3 Hd3 Hh4 Htr4.
  assert (hs_pc s3 = HDone (match resp with Raises e => Raised e
                                        | _ => RaisedCancelled end)
          ∧ hs_acts s3 = [Exit]) as [Hpc3 Hacts3].
  { unfold resume_handler in Hs3. cbn in Hs3.
    destruct resp; cbn in Hs3; by simplify_eq. }
  eapply run_idle in Hrun as [Hh' Htr']; [| done | by rewrite Hpc3 | done].
  split_and!; try done.
  - rewrite Htr', Htr4, Htr2, Hacts3. unfold cancelled_actions.
    by rewrite <- !app_assoc.
  - unfold pc_of. rewrite Hh'. cbn. by rewrite Hpc3.
Qed.

(** ** Shielded blocks and the backoff (lines 98-102) *)

(** Every [await] of the handler but the one on [process_event] is inside a
    shielded block: the cancellation of the task group reaches a handler
    only while it is suspended in [process_event]. *)
Lemma cancelled_only_in_process_event ts hd s :
  resume_handler ts hd Cancelled = Some s → ∃ r, h_pc hd = HProcess r.
Proof.
  unfold resume_handler, delivers_cancel. intros Hs.
  destruct (h_pc hd) eqn:Hpc; [| by eexists |..]; by cbn in Hs.
Qed.

(** C7, as stated, fails: the handler sleeps in the retry path, [stop] has
    cancelled the task group, and the cancellation cannot be delivered to the
    sleeping handler, whose block is shielded; the sleep returns and the
    handler goes on to call [no_ack]. *)
Lemma backoff_sleep_is_shielded :
  ∃ ts, run retry_then_stop default_task_system = Some ts ∧
    pc_of 0 ts = Some HRetrySleep ∧
    cancel_called ts = true ∧
    (shield <$> scope_at ts HRetrySleep) = Some true ∧
    step (LResume 0 Cancelled) ts = None ∧
    (pc_of 0 <$> step (LResume 0 (Returns false)) ts) = Some (Some HRetryNoAck).
Proof. exists (after retry_then_stop). by vm_compute. Qed.

(** C7, amended.  The sleep of the retry path and the [no_ack] after it are
    inside one block [fail_after(self._retry_delay + 5, shield=True)]: its
    deadline is the retry delay plus 5 seconds, and, the block being
    shielded, the cancellation of the task group is not delivered to the
    handler at either [await].  When the deadline expires there
    ([TimeoutError] out of the block) the handler ends with that exception. *)
Theorem backoff_shielded_with_deadline ts h hd :
  handlers ts !! h = Some hd →
  h_pc hd = HRetrySleep ∨ h_pc hd = HRetryNoAck →
  scope_at ts (h_pc hd) = Some (fail_after (_retry_delay ts + 5) true) ∧
  (deadline <$> scope_at ts (h_pc hd)) = Some (_retry_delay ts + 5)%Q ∧
  (shield <$> scope_at ts (h_pc hd)) = Some true ∧
  delivers_cancel ts (h_pc hd) = false ∧
  step (LResume h Cancelled) ts = None ∧
  (pc_of h <$> step (LResume h (Raises TimeoutError)) ts)
    = Some (Some (HDone (Raised TimeoutError))).
Proof.
  intros Hh Hpc.
  assert (h < length (handlers ts))%nat as Hlt by by eapply lookup_lt_Some.
  cbn. unfold resume, resume_handler, delivers_cancel, pc_of. rewrite Hh.
  destruct Hpc as [-> | ->]; cbn;
    rewrite list_lookup_insert_eq by done; done.
Qed.

(** ** The registry (lines 62-77) *)

Lemma registry_ok_new d dist name : registry_ok (new_task_system d dist name).
Proof. split; cbn; intros; simplify_map_eq. Qed.

(** A handler step leaves the registry or deletes one key. *)
Lemma resume_handler_registry ts hd resp s :
  resume_handler ts hd resp = Some s →
  hs_runners s = _runners ts ∨ ∃ tid, hs_runners s = delete tid (_runners ts).
Proof.
  intros Hs. unfold resume_handler in Hs.
  destruct resp as [[]|e|]; destruct (h_pc hd) eqn:Hpc; cbn in Hs;
    repeat case_match; simplify_eq; eauto;
    unfold except_clauses; repeat case_match; eauto.
Qed.

Lemma registry_ok_delete ts tid :
  registry_ok ts → registry_ok (with_runners (delete tid (_runners ts)) ts).
Proof.
  intros [Hk Hi Hin]. split; cbn.
  - intros k r [_ H]%lookup_delete_Some. eauto.
  - intros k1 k2 r1 r2 [_ H1]%lookup_delete_Some [_ H2]%lookup_delete_Some. eauto.
  - intros a ev Hl. destruct (Hin a ev Hl) as (Hnone & Hc & r & Hr & Ht & Hlt & Hfresh).
    split_and!; [|done|].
    + apply lookup_delete_None. eauto.
    + exists r. split_and!; try done.
      intros k r' [_ H]%lookup_delete_Some. eauto.
Qed.

Lemma registry_ok_step l ts ts' :
  step l ts = Some ts' → registry_ok ts → registry_ok ts'.
Proof.
  intros Hstep%step_Step Hok. pose proof Hok as [Hk Hi Hin].
  destruct Hstep; try destruct (stop_frame ts) as (acts & _ & ->);
    try (split; cbn; by eauto).
  - (* a runner is constructed *)
    split; cbn.
    + intros k r Hkr. destruct (Hk k r Hkr). split; [done|lia].
    + done.
    + intros a' ev' ?. simplify_eq. split_and!; try done.
      eexists. split_and!; try done; cbn; [lia|].
      intros k r' Hkr. destruct (Hk k r' Hkr). lia.
  - (* the runner is registered *)
    destruct (Hin a ev) as (Hnone & Hc & r0 & Hr & Ht & Hlt & Hfresh); [done|].
    simplify_eq. split; cbn.
    + intros k r' [[<- <-]|[? Hkr]]%lookup_insert_Some; [done|]. eauto.
    + intros k1 k2 r1 r2 [[<- <-]|[? Hr1]]%lookup_insert_Some
        [[<- <-]|[? Hr2]]%lookup_insert_Some Heq; try done.
      * by apply Hfresh in Hr2.
      * symmetry in Heq. by apply Hfresh in Hr1.
      * eauto.
    + done.
  - (* a handler is resumed *)
    match goal with H : resume_handler _ _ _ = Some _ |- _ =>
      destruct (resume_handler_registry _ _ _ _ H) as [Heq | [tid Heq]] end.
    + unfold apply_hstep. rewrite Heq. by split.
    + unfold apply_hstep. rewrite Heq.
      destruct (registry_ok_delete ts tid Hok) as [Hk' Hi' Hin']. by split.
Qed.

Lemma registry_ok_run ls ts ts' :
  run ls ts = Some ts' → registry_ok ts → registry_ok ts'.
Proof. apply run_preserves, registry_ok_step. Qed.

Lemma constructed_app tr1 tr2 :
  constructed (tr1 ++ tr2) = constructed tr1 ++ constructed tr2.
Proof. apply omap_app. Qed.

(** C8.  In every state the task system reaches from its construction:
    - two registered runners of one task identifier are one entry and one
      instance;
    - on a received event the loop constructs no runner when the task
      identifier has an entry (it takes the registered one), and constructs
      exactly one when it has none, and then suspends in [init];
    - while the loop is suspended in [init] it receives no further event,
      the task identifier still has no entry, and when [init] returns the
      loop registers the runner it constructed under that identifier and is
      back at the queue. *)
Theorem one_runner_per_task_id d dist name ls ts :
  run ls (new_task_system d dist name) = Some ts →
  (∀ k1 k2 r1 r2,
      _runners ts !! k1 = Some r1 → _runners ts !! k2 = Some r2 →
      runner_task_id r1 = runner_task_id r2 → k1 = k2 ∧ r1 = r2) ∧
  (∀ a ev ts', step (LRecv a ev) ts = Some ts' →
      match _runners ts !! task_id ev with
      | Some r =>
          constructed (trace ts') = constructed (trace ts) ∧
          _runners ts' = _runners ts ∧ cell_runner ts' = Some r ∧
          loop ts' = LIdle
      | None =>
          ∃ r, constructed (trace ts') = constructed (trace ts) ++ [r] ∧
               runner_task_id r = task_id ev ∧ cell_runner ts' = Some r ∧
               _runners ts' = _runners ts ∧ loop ts' = LAwaitInit a ev
      end) ∧
  (∀ a ev, loop ts = LAwaitInit a ev →
      (∀ a' ev', step (LRecv a' ev') ts = None) ∧
      _runners ts !! task_id ev = None ∧
      ∃ r, cell_runner ts = Some r ∧ runner_task_id r = task_id ev ∧
        ∀ b, ∃ ts', step (LInit (Returns b)) ts = Some ts' ∧
                    _runners ts' = <[task_id ev := r]> (_runners ts) ∧
                    loop ts' = LIdle).
Proof.
  intros Hrun.
  destruct (registry_ok_run _ _ _ Hrun (registry_ok_new d dist name))
    as [Hk Hi Hin].
  split_and!.
  - intros k1 k2 r1 r2 H1 H2 Heq.
    destruct (Hk _ _ H1) as [Ht1 _], (Hk _ _ H2) as [Ht2 _].
    assert (k1 = k2) as -> by congruence. split; [done|congruence].
  - intros a ev ts' Hstep. cbn in Hstep.
    destruct (loop ts); try done. destruct (_stop_event ts) as [[]|]; try done.
    simplify_eq. unfold receive. cbn.
    destruct (_runners ts !! task_id ev) as [r|] eqn:Hr; cbn.
    + rewrite <- app_assoc, constructed_app. cbn. by rewrite app_nil_r.
    + eexists. split_and!; [rewrite constructed_app; reflexivity | done..].
  - intros a ev Hl.
    destruct (Hin a ev Hl) as (Hnone & Hc & r & Hr & Ht & Hlt & Hfresh).
    split_and!; try done.
    + intros a' ev'. cbn. by rewrite Hl.
    + exists r. split_and!; try done. intros b. cbn. unfold init_done, register.
      rewrite Hl, Hc, Hr. by eexists.
Qed.

(** ** [stop] (lines 127-131) *)

Lemma stop_erase_trace ts1 ts2 :
  erase_trace ts1 = erase_trace ts2 →
  erase_trace (stop ts1) = erase_trace (stop ts2).
Proof.
  destruct ts1 as [d di n se tg rs lp ct cr hs ni tr1], ts2 as [? ? ? ? ? ? ? ? ? ? ? tr2].
  unfold erase_trace. cbn. intros Heq. inversion Heq; subst; clear Heq.
  unfold stop. cbn.
  repeat match goal with o : option bool |- _ => destruct o as [[]|] end; done.
Qed.

Lemma stop_stop ts :
  erase_trace (stop (stop ts)) = erase_trace (stop ts) ∧
  scope_cancels (stop (stop ts)) = scope_cancels (stop ts).
Proof.
  destruct ts as [d di n se tg rs lp ct cr hs ni tr].
  unfold erase_trace, scope_cancels, stop, count. cbn.
  destruct se as [b|], tg as [[]|]; cbn;
    rewrite ?map_app, ?List.filter_app, ?length_app; cbn; split; try done; lia.
Qed.

Lemma stop_cancels_once ts :
  scope_cancels (stop ts)
  = (scope_cancels ts + if _tg ts is Some false then 1 else 0)%nat.
Proof.
  destruct ts as [d di n se tg rs lp ct cr hs ni tr].
  unfold scope_cancels, stop, count. cbn.
  destruct se as [b|], tg as [[]|]; cbn;
    rewrite ?map_app, ?List.filter_app, ?length_app; cbn; lia.
Qed.

(** C9.  [stop] always returns.  However often it is called in a row, the
    object is as the first of these calls left it, and
    [cancel_scope.cancel()] has been called as often as after the first of
    them, which called it once if the task group was there and not yet
    cancelled, and not at all otherwise; all a repeated call does is call
    [set()] on the stop event that is already set.  On a task system that
    has not been started, or that [start] has left, [stop] does nothing. *)
Theorem stop_idempotent ts n d dist name :
  step LStop ts = Some (stop ts) ∧
  erase_trace (Nat.iter (S n) stop ts) = erase_trace (stop ts) ∧
  scope_cancels (Nat.iter (S n) stop ts) = scope_cancels (stop ts) ∧
  scope_cancels (stop ts)
    = (scope_cancels ts + if _tg ts is Some false then 1 else 0)%nat ∧
  trace (stop (stop ts))
    = trace (stop ts) ++ (if _stop_event ts is Some _ then [(Caller, EventSet)] else []) ∧
  cancel_called (stop ts) = (if _tg ts is Some _ then true else false) ∧
  _stop_event (stop ts) = (λ _, true) <$> _stop_event ts ∧
  stop (new_task_system d dist name) = new_task_system d dist name ∧
  (stop <$> start_exit ts) = start_exit ts.
Proof.
  split_and!.
  - done.
  - induction n as [|n IH]; [done|].
    change (Nat.iter (S (S n)) stop ts) with (stop (Nat.iter (S n) stop ts)).
    rewrite (stop_erase_trace _ _ IH). apply stop_stop.
  - induction n as [|n IH]; [done|].
    change (Nat.iter (S (S n)) stop ts) with (stop (Nat.iter (S n) stop ts)).
    etrans; [|exact IH]. simpl. apply stop_stop.
  - apply stop_cancels_once.
  - destruct ts as [? ? ? se tg ? ? ? ? ? ? ?]. unfold stop. cbn.
    destruct se, tg as [[]|]; cbn; by rewrite ?app_nil_r.
  - destruct ts as [? ? ? se tg ? ? ? ? ? ? ?]. unfold stop, cancel_called. cbn.
    by destruct se, tg as [[]|].
  - destruct ts as [? ? ? se tg ? ? ? ? ? ? ?]. unfold stop. cbn.
    by destruct se, tg as [[]|].
  - done.
  - unfold start_exit. destruct (leaving ts); done.
Qed.

(** ** The accessor (lines 134-146) *)

(** C10.  After [set_task_system(ts1)], [get_task_system()] returns [ts1];
    a second [set_task_system(ts2)] replaces the stored reference, whatever
    it was, without a check and without an error, and [get_task_system()]
    then returns [ts2]. *)
Theorem set_then_get {A : Type} (ts1 ts2 : A) (g : module_state) :
  get_task_system (set_task_system ts1 g) = inr ts1 ∧
  get_task_system (set_task_system ts2 (set_task_system ts1 g)) = inr ts2 ∧
  set_task_system ts2 (set_task_system ts1 g) = set_task_system ts2 g.
Proof. done. Qed.

(** Before the first [set_task_system] the assertion of [get_task_system]
    fails. *)
Lemma get_unset {A : Type} :
  get_task_system (A := A) None = inl (AssertionError "TaskSystem has not been set.").
Proof. done. Qed.

(** ** The variables [runner] and [task_id] of [start] in the handlers *)

Lemma two_in_flight_state :
  run two_in_flight default_task_system = Some (after two_in_flight) ∧
  handlers (after two_in_flight) = [handler1; handler2] ∧
  _runners (after two_in_flight) = <[2 := runner2]> (<[1 := runner1]> ∅) ∧
  cell_task_id (after two_in_flight) = Some 2 ∧
  cell_runner (after two_in_flight) = Some runner2.
Proof. by vm_compute. Qed.

(** C1 on the code.  The events of tasks 1 and 2 are in flight, the handler
    of each suspended in [process_event] of that task's runner; the loop
    dispatched the event of task 2 last, so [task_id] is 2.  Now
    [process_event] of task 1 returns [True]: the handler of the event of
    task 1 executes [del self._runners[task_id]] and deletes the entry of
    task 2.  The runner of task 1 stays registered, and the handler of task
    2 is still at work on a runner that is registered no more. *)
Lemma finished_handler_deletes_other_task :
  let ls := two_in_flight ++ [LResume 0 (Returns true)] in
  run ls default_task_system = Some (after ls) ∧
  (task_id ∘ h_event <$> handlers (after ls) !! 0%nat) = Some 1 ∧
  htrace 0 (trace (after ls))
    = [Call (process_event runner1 ev1);
       Enter (fail_after 5 true); DelItem 2; Log DEBUG (MsgFinished 1);
       Call (ack 101)] ∧
  _runners (after ls) !! 1 = Some runner1 ∧
  _runners (after ls) !! 2 = None ∧
  pc_of 1 (after ls) = Some (HProcess runner2).
Proof. by vm_compute. Qed.

(** C2 on the code.  In the same situation [process_event] returns [True]
    for both events.  The handler of task 1 deletes the entry of task 2 and
    calls [ack(101)].  The handler of task 2 then fails in
    [del self._runners[task_id]] with [KeyError]; the clause
    [except Exception] catches it and calls [no_ack(102)]: for this event
    [ack] is never called.  In the end the runner of task 1 is still
    registered. *)
Lemma finished_handler_never_acks :
  let ls := two_in_flight ++
            [LResume 0 (Returns true); LResume 1 (Returns true);
             LResume 0 (Returns false); LResume 1 (Returns false)] in
  run ls default_task_system = Some (after ls) ∧
  htrace 0 (trace (after ls))
    = [Call (process_event runner1 ev1);
       Enter (fail_after 5 true); DelItem 2; Log DEBUG (MsgFinished 1);
       Call (ack 101); Log DEBUG (MsgSuccess 1 "TaskCreated"); Exit] ∧
  htrace 1 (trace (after ls))
    = [Call (process_event runner2 ev2);
       Enter (fail_after 5 true); Exit;
       Log ERROR (MsgTraceback (KeyError 2));
       Log ERROR (MsgUnknownError 2 "TaskCreated");
       Enter (fail_after 5 true); Call (no_ack 102); Exit] ∧
  count is_ack (htrace 1 (trace (after ls))) = 0%nat ∧
  count is_no_ack (htrace 1 (trace (after ls))) = 1%nat ∧
  count is_write (htrace 1 (trace (after ls))) = 0%nat ∧
  pc_of 0 (after ls) = Some (HDone Finished) ∧
  pc_of 1 (after ls) = Some (HDone Finished) ∧
  _runners (after ls) = <[1 := runner1]> ∅.
Proof. by vm_compute. Qed.

(** C4 on the code.  In the same situation [process_event] raises a
    [TaskError] with [retry] false for both events.  The handler of task 1
    calls [ack(101)] and then deletes the entry of task 2; the handler of
    task 2 calls [ack(102)] and then fails in [del self._runners[task_id]]
    with [KeyError], which leaves the handler.  The runner of task 1, whose
    task has ended, is still registered. *)
Lemma failed_handler_deletes_other_task :
  let ls := two_in_flight ++
            [LResume 0 (Raises (TaskError false)); LResume 0 (Returns false);
             LResume 1 (Raises (TaskError false)); LResume 1 (Returns false)] in
  run ls default_task_system = Some (after ls) ∧
  htrace 0 (trace (after ls))
    = [Call (process_event runner1 ev1);
       Log ERROR (MsgFailed 1 "TaskCreated");
       Enter (fail_after 5 true); Call (ack 101); DelItem 2;
       Log DEBUG (MsgFinishedWithError 1); Exit] ∧
  htrace 1 (trace (after ls))
    = [Call (process_event runner2 ev2);
       Log ERROR (MsgFailed 2 "TaskCreated");
       Enter (fail_after 5 true); Call (ack 102); Exit] ∧
  count is_write (htrace 1 (trace (after ls))) = 0%nat ∧
  pc_of 0 (after ls) = Some (HDone Finished) ∧
  pc_of 1 (after ls) = Some (HDone (Raised (KeyError 2))) ∧
  _runners (after ls) = <[1 := runner1]> ∅.
Proof. by vm_compute. Qed.

(** The key that lines 84 and 107 delete is the value that [task_id] has in
    the frame of [start] when the handler is resumed; the event of the
    handler plays no part in it. *)
Lemma finished_deletes_loop_variable ts hd r tid r' :
  h_pc hd = HProcess r → cell_task_id ts = Some tid →
  _runners ts !! tid = Some r' →
  resume_handler ts hd (Returns true)
  = Some {| hs_pc := HAck;
            hs_acts := [Enter (fail_after 5 true); DelItem tid;
                        Log DEBUG (MsgFinished (task_id (h_event hd)));
                        Call (ack (h_ack_id hd))];
            hs_runners := delete tid (_runners ts) |}.
Proof. intros Hpc Hc Hr. unfold resume_handler. by rewrite Hpc, Hc, Hr. Qed.

Lemma finished_key_error ts hd r tid :
  h_pc hd = HProcess r → cell_task_id ts = Some tid →
  _runners ts !! tid = None →
  resume_handler ts hd (Returns true)
  = Some (prepend [Enter (fail_after 5 true); Exit]
            (except_clauses ts hd (KeyError tid))).
Proof. intros Hpc Hc Hr. unfold resume_handler. by rewrite Hpc, Hc, Hr. Qed.

Lemma failed_deletes_loop_variable ts hd tid r' b :
  h_pc hd = HFinalAck → cell_task_id ts = Some tid →
  _runners ts !! tid = Some r' →
  resume_handler ts hd (Returns b)
  = Some {| hs_pc := HDone Finished;
            hs_acts := [DelItem tid;
                        Log DEBUG (MsgFinishedWithError (task_id (h_event hd)));
                        Exit];
            hs_runners := delete tid (_runners ts) |}.
Proof. intros Hpc Hc Hr. unfold resume_handler. by rewrite Hpc, Hc, Hr. Qed.

(** [start_soon] only schedules the handler.  If the loop is resumed with
    the next event before that handler is entered, line 81 reads [runner]
    after the loop has rebound it: the handler of the event of task 1 calls
    [process_event] on the runner of task 2. *)
Lemma late_handler_calls_other_runner :
  let ls := [LStart; LRecv 101 ev1; LInit (Returns false);
             LRecv 102 ev2; LInit (Returns false); LStartHandler 0] in
  run ls default_task_system = Some (after ls) ∧
  htrace 0 (trace (after ls)) = [Call (process_event runner2 ev1)].
Proof. by vm_compute. Qed.

(** ** One event in flight *)

(** A suspended handler accepts every answer but the cancellation. *)
Lemma resume_enabled ts h hd resp :
  handlers ts !! h = Some hd → suspended (h_pc hd) = true →
  is_Some (cell_task_id ts) → resp ≠ Cancelled →
  is_Some (step (LResume h resp) ts).
Proof.
  intros Hh Hpc [tid Hc] Hresp. cbn. unfold resume, resume_handler.
  rewrite Hh, Hc.
  destruct resp as [[]|e|]; [..|done]; destruct (h_pc hd); try done;
    destruct (_runners ts !! tid); done.
Qed.

(** [process_event] returns [False]: one [ack], the runner stays. *)
Lemma one_event_unfinished :
  let ls := one_in_flight (Returns false) ++ [LResume 0 (Returns false)] in
  run ls default_task_system = Some (after ls) ∧
  htrace 0 (trace (after ls))
    = [Call (process_event runner1 ev1); Enter (fail_after 5 true);
       Call (ack 101); Log DEBUG (MsgSuccess 1 "TaskCreated"); Exit] ∧
  _runners (after ls) = <[1 := runner1]> ∅.
Proof. by vm_compute. Qed.

(** [process_event] returns [True]: the entry is deleted, then [ack]. *)
Lemma one_event_finished :
  let ls := one_in_flight (Returns true) ++ [LResume 0 (Returns false)] in
  run ls default_task_system = Some (after ls) ∧
  htrace 0 (trace (after ls))
    = [Call (process_event runner1 ev1); Enter (fail_after 5 true);
       DelItem 1; Log DEBUG (MsgFinished 1); Call (ack 101);
       Log DEBUG (MsgSuccess 1 "TaskCreated"); Exit] ∧
  _runners (after ls) = ∅.
Proof. by vm_compute. Qed.

(** [process_event] raises a [TaskError] without [retry]: [ack], then the
    entry is deleted. *)
Lemma one_event_failed :
  let ls := one_in_flight (Raises (TaskError false)) ++ [LResume 0 (Returns false)] in
  run ls default_task_system = Some (after ls) ∧
  htrace 0 (trace (after ls))
    = [Call (process_event runner1 ev1);
       Log ERROR (MsgFailed 1 "TaskCreated"); Enter (fail_after 5 true);
       Call (ack 101); DelItem 1; Log DEBUG (MsgFinishedWithError 1); Exit] ∧
  _runners (after ls) = ∅.
Proof. by vm_compute. Qed.

(** ** The theorems at concrete schedules *)

Lemma retryable_failure_sleeps_then_no_ack_witness :
  let ts := after two_in_flight in
  let ls := [LResume 0 (Raises (TaskError true)); LResume 1 (Returns false);
             LResume 0 (Returns false); LStop; LResume 0 (Returns false)] in
  let ts' := after (two_in_flight ++ ls) in
  (handlers ts !! 0%nat = Some handler1 ∧ run ls ts = Some ts') ∧
  htrace 0 (trace ts') = htrace 0 (trace ts) ++ retry_actions ts handler1 ∧
  pc_of 0 ts' = Some (HDone Finished).
Proof.
  intros ts ls ts'.
  assert (handlers ts !! 0%nat = Some handler1) as H1 by (vm_compute; reflexivity).
  assert (run ls ts = Some ts') as H2 by (vm_compute; reflexivity).
  destruct (retryable_failure_sleeps_then_no_ack ts ts' 0 handler1 runner1 ls
              false (Returns false) H1 eq_refl H2 eq_refl)
    as (Ha & _ & _ & _ & Hb).
  exact (conj (conj H1 H2) (conj Ha Hb)).
Defined.

Lemma unknown_failure_no_ack_at_once_witness :
  let ts := after two_in_flight in
  let e := OtherException "ValueError" in
  let ls := [LResume 0 (Raises e); LResume 1 (Returns false);
             LResume 0 (Returns false)] in
  let ts' := after (two_in_flight ++ ls) in
  (handlers ts !! 0%nat = Some handler1 ∧ is_task_error e = false ∧
   run ls ts = Some ts') ∧
  htrace 0 (trace ts') = htrace 0 (trace ts) ++ unknown_actions handler1 e ∧
  pc_of 0 ts' = Some (HDone Finished).
Proof.
  intros ts e ls ts'.
  assert (handlers ts !! 0%nat = Some handler1) as H1 by (vm_compute; reflexivity).
  assert (run ls ts = Some ts') as H2 by (vm_compute; reflexivity).
  destruct (unknown_failure_no_ack_at_once ts ts' 0 handler1 runner1 ls e
              (Returns false) H1 eq_refl eq_refl H2 eq_refl)
    as (Ha & _ & _ & _ & _ & Hb).
  exact (conj (conj H1 (conj eq_refl H2)) (conj Ha Hb)).
Defined.

Lemma cancelled_no_ack_then_reraise_witness :
  let ts := after (two_in_flight ++ [LStop]) in
  let ls := [LResume 0 Cancelled; LResume 1 Cancelled;
             LResume 0 (Returns false)] in
  let ts' := after (two_in_flight ++ [LStop] ++ ls) in
  (handlers ts !! 0%nat = Some handler1 ∧ run ls ts = Some ts') ∧
  htrace 0 (trace ts') = htrace 0 (trace ts) ++ cancelled_actions handler1 ∧
  pc_of 0 ts' = Some (HDone RaisedCancelled).
Proof.
  intros ts ls ts'.
  assert (handlers ts !! 0%nat = Some handler1) as H1 by (vm_compute; reflexivity).
  assert (run ls ts = Some ts') as H2 by (vm_compute; reflexivity).
  destruct (cancelled_no_ack_then_reraise ts ts' 0 handler1 runner1 ls
              (Returns false) H1 eq_refl H2 eq_refl)
    as (Ha & _ & _ & _ & Hb).
  exact (conj (conj H1 H2) (conj Ha Hb)).
Defined.

Lemma backoff_shielded_with_deadline_witness :
  let ts := after retry_then_stop in
  let hd := set_pc HRetrySleep handler1 in
  handlers ts !! 0%nat = Some hd ∧
  scope_at ts (h_pc hd) = Some (fail_after (_retry_delay ts + 5) true) ∧
  step (LResume 0 Cancelled) ts = None.
Proof.
  intros ts hd.
  assert (handlers ts !! 0%nat = Some hd) as H1 by (vm_compute; reflexivity).
  destruct (backoff_shielded_with_deadline ts 0 hd H1 (or_introl eq_refl))
    as (Ha & _ & _ & _ & Hb & _).
  exact (conj H1 (conj Ha Hb)).
Defined.

Lemma one_runner_per_task_id_witness :
  run two_in_flight (new_task_system 5 false "sd_lora_inference")
    = Some (after two_in_flight) ∧
  ∀ k1 k2 r1 r2,
    _runners (after two_in_flight) !! k1 = Some r1 →
    _runners (after two_in_flight) !! k2 = Some r2 →
    runner_task_id r1 = runner_task_id r2 → k1 = k2 ∧ r1 = r2.
Proof.
  assert (run two_in_flight (new_task_system 5 false "sd_lora_inference")
            = Some (after two_in_flight)) as H1 by (vm_compute; reflexivity).
  exact (conj H1 (proj1 (one_runner_per_task_id _ _ _ _ _ H1))).
Defined.

(** * Further properties *)

(** ** Invariants of the handlers *)

Section HandlerInvariant.
Variable Q : handler → list action → Prop.
Hypothesis Q_new :
  ∀ a ev, Q {| h_ack_id := a; h_event := ev; h_pc := HReady |} [].
Hypothesis Q_enter :
  ∀ hd r acts, h_pc hd = HReady → Q hd acts →
    Q (set_pc (HProcess r) hd) (acts ++ [Call (process_event r (h_event hd))]).
Hypothesis Q_resume :
  ∀ ts hd resp s acts, resume_handler ts hd resp = Some s → Q hd acts →
    Q (set_pc (hs_pc s) hd) (acts ++ hs_acts s).

Lemma handler_inv_step l ts ts' :
  step l ts = Some ts' → handler_inv Q ts → handler_inv Q ts'.
Proof.
  intros Hstep Hinv h. specialize (Hinv h).
  destruct (decide (scheduled l = Some h)) as [Hl|Hl].
  - destruct l; cbn in Hl; simplify_eq; cbn in Hstep.
    + unfold start_handler in Hstep.
      destruct (handlers ts !! h) as [hd|] eqn:Hh; [|done].
      destruct (h_pc hd) eqn:Hpc; try done.
      destruct (cell_runner ts) as [r|]; simplify_eq.
      rewrite apply_hstep_lookup, apply_hstep_htrace by done. by apply Q_enter.
    + unfold resume in Hstep.
      destruct (handlers ts !! h) as [hd|] eqn:Hh; [|done].
      destruct (resume_handler ts hd resp) as [s|] eqn:Hs; simplify_eq.
      rewrite apply_hstep_lookup, apply_hstep_htrace by done. by eapply Q_resume.
  - rewrite (step_htrace_foreign _ _ _ _ Hstep Hl).
    destruct (step_handlers _ _ _ h Hstep Hl) as [-> | [Hnone (a & ev & ->)]];
      [done|].
    rewrite Hnone in Hinv. rewrite Hinv. apply Q_new.
Qed.

Lemma handler_inv_reachable d dist name ls ts :
  run ls (new_task_system d dist name) = Some ts → handler_inv Q ts.
Proof.
  intros Hrun. eapply (run_preserves (handler_inv Q)); [|done|].
  - apply handler_inv_step.
  - by intros h.
Qed.
End HandlerInvariant.

Lemma queue_calls_app acts1 acts2 :
  queue_calls (acts1 ++ acts2) = queue_calls acts1 ++ queue_calls acts2.
Proof. apply omap_app. Qed.

(** The calls on the queue follow the handler through its clauses. *)
Lemma calls_allowed_resume ts hd resp s acts :
  resume_handler ts hd resp = Some s → calls_allowed hd acts →
  calls_allowed (set_pc (hs_pc s) hd) (acts ++ hs_acts s).
Proof.
  unfold calls_allowed. rewrite queue_calls_app.
  destruct hd as [i ev pc]. cbn. intros Hs Hq.
  unfold resume_handler in Hs. cbn in Hs.
  destruct resp as [[]|e|]; destruct pc as [| | | | | | | |[]]; cbn in Hs;
    repeat case_match; simplify_eq; unfold except_clauses;
    try destruct e as [[]| | | |]; cbn in *;
    set_unfold; destruct_or?; simplify_eq;
    repeat match goal with H : queue_calls _ = _ |- _ => rewrite H end;
    cbn; eauto 10.
Qed.

Lemma calls_allowed_reachable d dist name ls ts :
  run ls (new_task_system d dist name) = Some ts → handler_inv calls_allowed ts.
Proof.
  apply handler_inv_reachable.
  - intros a ev. unfold calls_allowed. cbn. set_solver.
  - intros [i ev pc] r acts Hpc Hq. unfold calls_allowed in *. cbn in *.
    subst pc. rewrite queue_calls_app. cbn in *. set_unfold.
    destruct Hq as [Hq|[]]. rewrite Hq. by left.
  - apply calls_allowed_resume.
Qed.

(** X1.  In every state reached from the construction, the calls a handler
    has made on the queue are none, [ack], [ack] twice, [no_ack], or [ack]
    and then [no_ack], all on the delivery handle it was launched with: a
    handler never calls [no_ack] twice, never calls the queue again after
    [no_ack], and never uses the handle of another delivery. *)
Theorem handler_queue_calls d dist name ls ts h hd :
  run ls (new_task_system d dist name) = Some ts →
  handlers ts !! h = Some hd →
  queue_calls (htrace h (trace ts))
  ∈ [[]; [ack (h_ack_id hd)]; [ack (h_ack_id hd); ack (h_ack_id hd)];
     [no_ack (h_ack_id hd)]; [ack (h_ack_id hd); no_ack (h_ack_id hd)]].
Proof.
  intros Hrun Hh.
  pose proof (calls_allowed_reachable _ _ _ _ _ Hrun h) as Hq.
  rewrite Hh in Hq. unfold calls_allowed in Hq.
  destruct (h_pc hd) as [| | | | | | | |[]]; cbn in Hq;
    rewrite !elem_of_cons, elem_of_nil in Hq;
    rewrite !elem_of_cons, elem_of_nil; tauto.
Qed.

(** X2.  In every state reached from the construction, a handler that has
    ended normally has called [ack] or [no_ack] on its delivery, and a
    handler that has ended raising the cancellation has called [no_ack] and
    nothing else on the queue: the handler leaves no delivery without an
    answer unless an exception leaves it. *)
Theorem ended_handler_answered d dist name ls ts h hd :
  run ls (new_task_system d dist name) = Some ts →
  handlers ts !! h = Some hd →
  (h_pc hd = HDone Finished →
     queue_calls (htrace h (trace ts))
     ∈ [[ack (h_ack_id hd)]; [no_ack (h_ack_id hd)];
        [ack (h_ack_id hd); no_ack (h_ack_id hd)];
        [ack (h_ack_id hd); ack (h_ack_id hd)]]) ∧
  (h_pc hd = HDone RaisedCancelled →
     queue_calls (htrace h (trace ts)) = [no_ack (h_ack_id hd)]).
Proof.
  intros Hrun Hh.
  pose proof (calls_allowed_reachable _ _ _ _ _ Hrun h) as Hq.
  rewrite Hh in Hq. unfold calls_allowed in Hq.
  split; intros Hpc; rewrite Hpc in Hq; cbn in Hq;
    rewrite !elem_of_cons, elem_of_nil in Hq.
  - rewrite !elem_of_cons, elem_of_nil. tauto.
  - tauto.
Qed.

Lemma processed_once_resume ts hd resp s acts :
  resume_handler ts hd resp = Some s → processed_once hd acts →
  processed_once (set_pc (hs_pc s) hd) (acts ++ hs_acts s).
Proof.
  unfold processed_once. rewrite List.filter_app.
  destruct hd as [i ev pc]. cbn. intros Hs Hq.
  unfold resume_handler in Hs. cbn in Hs.
  destruct resp as [[]|e|]; destruct pc as [| | | | | | | |[]]; cbn in Hs;
    repeat case_match; simplify_eq; unfold except_clauses;
    try destruct e as [[]| | | |]; cbn in *;
    try match type of Hq with ex _ => destruct Hq as [r' Hq] end;
    rewrite Hq; simplify_eq; eauto.
Qed.

(** X3.  In every state reached from the construction, a handler that has
    been entered has called [process_event] exactly once, with the event it
    was launched with; while it is suspended there, the runner of that call
    is the one it waits for.  A handler never calls [process_event] again,
    whatever the answers. *)
Theorem handler_processes_once d dist name ls ts h hd :
  run ls (new_task_system d dist name) = Some ts →
  handlers ts !! h = Some hd →
  match h_pc hd with
  | HReady => List.filter is_process (htrace h (trace ts)) = []
  | HProcess r =>
      List.filter is_process (htrace h (trace ts))
      = [Call (process_event r (h_event hd))]
  | _ =>
      ∃ r, List.filter is_process (htrace h (trace ts))
           = [Call (process_event r (h_event hd))]
  end.
Proof.
  intros Hrun Hh.
  assert (handler_inv processed_once ts) as Hinv.
  { eapply handler_inv_reachable; [| |apply processed_once_resume|done].
    - done.
    - intros [i ev pc] r acts Hpc Hq. unfold processed_once in *. cbn in *.
      subst pc. rewrite List.filter_app, Hq. done. }
  specialize (Hinv h). by rewrite Hh in Hinv.
Qed.

(** ** A handler ends *)

Lemma resume_handler_rank ts hd resp s :
  resume_handler ts hd resp = Some s → (rank (hs_pc s) < rank (h_pc hd))%nat.
Proof.
  intros Hs. unfold resume_handler in Hs.
  destruct resp as [[]|e|]; destruct (h_pc hd) eqn:Hpc; cbn in Hs;
    repeat case_match; simplify_eq; unfold except_clauses;
    try destruct e as [[]| | | |]; cbn; lia.
Qed.

(** Every answer brings the handler nearer to its end. *)
Lemma answers_bounded_by_rank ls ts ts' h hd :
  run ls ts = Some ts' → handlers ts !! h = Some hd →
  (length (responses_of h ls) ≤ rank (h_pc hd))%nat.
Proof.
  revert ts hd. induction ls as [|l ls IH]; intros ts hd Hrun Hh; cbn in Hrun.
  - cbn. lia.
  - destruct (step l ts) as [ts1|] eqn:Hstep; [|done].
    destruct (decide (scheduled l = Some h)) as [Hl|Hl].
    + destruct l; cbn in Hl; simplify_eq; cbn in Hstep.
      * unfold start_handler in Hstep. rewrite Hh in Hstep.
        destruct (h_pc hd) eqn:Hpc; try done.
        destruct (cell_runner ts) as [r|]; simplify_eq.
        pose proof (apply_hstep_lookup h hd (enter_process r hd ts) ts Hh) as Hh1.
        apply (IH _ _ Hrun) in Hh1. cbn in *. done.
      * unfold resume in Hstep. rewrite Hh in Hstep.
        destruct (resume_handler ts hd resp) as [s|] eqn:Hs; simplify_eq.
        pose proof (apply_hstep_lookup h hd s ts Hh) as Hh1.
        apply (IH _ _ Hrun) in Hh1. cbn in Hh1.
        pose proof (resume_handler_rank _ _ _ _ Hs).
        cbn. rewrite decide_True by done. cbn. lia.
    + destruct (step_frame _ _ _ _ _ Hstep Hl Hh) as [Hh1 _].
      apply (IH _ _ Hrun) in Hh1.
      destruct l; cbn in *; try done. case_decide; [congruence|done].
Qed.

(** X4.  In a schedule from the construction no handler is answered more
    than four times: a handler awaits [process_event] and then at most
    three more calls ([ack], the sleep and [no_ack]); it has no loop and
    cannot be resumed once it has ended. *)
Theorem handler_answered_at_most_four_times d dist name ls ts h :
  run ls (new_task_system d dist name) = Some ts →
  (length (responses_of h ls) ≤ 4)%nat ∧
  (∀ hd o resp, handlers ts !! h = Some hd → h_pc hd = HDone o →
     step (LResume h resp) ts = None).
Proof.
  intros Hrun. split.
  - assert (∀ ls ts0, run ls ts0 = Some ts → handlers ts0 !! h = None →
              (length (responses_of h ls) ≤ 4)%nat) as Hnone.
    { clear. induction ls as [|l ls IH]; intros ts0 Hrun Hh; cbn in Hrun.
      - cbn. lia.
      - destruct (step l ts0) as [ts1|] eqn:Hstep; [|done].
        destruct (decide (scheduled l = Some h)) as [Hl|Hl].
        + destruct l; cbn in Hl; simplify_eq; cbn in Hstep.
          * unfold start_handler in Hstep. by rewrite Hh in Hstep.
          * unfold resume in Hstep. by rewrite Hh in Hstep.
        + assert (responses_of h (l :: ls) = responses_of h ls) as ->.
          { destruct l; cbn in *; try done. case_decide; [congruence|done]. }
          destruct (step_handlers _ _ _ h Hstep Hl) as [Heq | [_ (a & ev & Hnew)]].
          * apply (IH _ Hrun). congruence.
          * apply (answers_bounded_by_rank _ _ _ _ _ Hrun Hnew). }
    by apply (Hnone _ _ Hrun).
  - intros hd o resp Hh Hpc. cbn. unfold resume, resume_handler.
    rewrite Hh, Hpc. by destruct resp.
Qed.

(** ** The life cycle (lines 53-61 and 118-131) *)

Lemma lifecycle_ok_step l ts ts' :
  step l ts = Some ts' → lifecycle_ok ts → lifecycle_ok ts'.
Proof.
  intros Hstep%step_Step. unfold lifecycle_ok.
  destruct Hstep;
    repeat match goal with H : loop _ = _ |- _ => rewrite H; clear H end;
    cbn; try done.
  destruct ts as [? ? ? se tg ? lp ? ? ? ? ?]. unfold stop. cbn.
  destruct lp, se, tg as [[]|]; cbn; intros [? ?]; done.
Qed.

(** X5.  In every state reached from the construction, [start] passes its
    two assertions exactly when no call of [start] is under way: before the
    first call and after a call has been left it enters the loop with a
    fresh stop event and task group; while a call is under way (the stop
    event and the task group are there, whether [stop] has been called or
    not) a second call fails with [AssertionError] and changes nothing. *)
Theorem start_asserts_not_started d dist name ls ts :
  run ls (new_task_system d dist name) = Some ts →
  match loop ts with
  | LNotStarted =>
      ∃ ts', start_enter ts = inr ts' ∧ step LStart ts = Some ts' ∧
             _stop_event ts' = Some false ∧ _tg ts' = Some false ∧
             loop ts' = LIdle ∧ _runners ts' = _runners ts
  | _ =>
      start_enter ts
      = inl (AssertionError "The TaskSystem has already been started.") ∧
      step LStart ts = None
  end.
Proof.
  intros Hrun.
  assert (lifecycle_ok ts) as Hok.
  { eapply (run_preserves lifecycle_ok); [apply lifecycle_ok_step|done|done]. }
  unfold lifecycle_ok in Hok. cbn. unfold start_enter.
  destruct (loop ts); destruct Hok as [Hse Htg].
  - rewrite Hse, Htg. by eexists.
  - by destruct Hse as [? ->].
  - by destruct Hse as [? ->].
  - by destruct Hse as [? ->].
Qed.

(** ** [init] fails (lines 75-76) *)

(** X6.  In every state reached from the construction in which the loop is
    suspended in [runner.init()]: if [init] raises or is cancelled, the
    exception leaves the loop, the constructed runner is not registered (the
    task identifier still has no entry), no handler is launched for the
    event, no handler's record changes, and the loop takes no further event
    and no further answer. *)
Theorem init_failure_registers_nothing d dist name ls ts a ev resp :
  run ls (new_task_system d dist name) = Some ts →
  loop ts = LAwaitInit a ev → (∀ b, resp ≠ Returns b) →
  ∃ ts', step (LInit resp) ts = Some ts' ∧
    loop ts' = LFailed (answered resp) ∧
    _runners ts' = _runners ts ∧ _runners ts' !! task_id ev = None ∧
    handlers ts' = handlers ts ∧
    (∀ h, htrace h (trace ts') = htrace h (trace ts)) ∧
    (∀ a' ev', step (LRecv a' ev') ts' = None) ∧
    (∀ resp', step (LInit resp') ts' = None).
Proof.
  intros Hrun Hl Hresp.
  destruct (registry_ok_run _ _ _ Hrun (registry_ok_new d dist name))
    as [_ _ Hin].
  destruct (Hin a ev Hl) as (Hnone & _).
  cbn. unfold init_done. rewrite Hl.
  destruct resp as [b|e|]; [by destruct (Hresp b)|..];
    eexists; (split; [done|]); cbn; split_and!; done.
Qed.

(** ** Who writes the registry *)

(** X7.  In every state reached from the construction, the registry is
    written by two kinds of steps only.  The loop adds one entry when
    [init] returns, under a key that has no entry.  A resumed handler leaves
    the registry as it is or deletes one key.  No other step (receiving an
    event, entering a handler, a failed [init], [stop], entering and leaving
    [start]) changes it. *)
Theorem registry_written_by d dist name ls ts l ts' :
  run ls (new_task_system d dist name) = Some ts →
  step l ts = Some ts' →
  match l with
  | LInit (Returns _) =>
      ∃ tid r, _runners ts !! tid = None ∧ cell_runner ts = Some r ∧
               _runners ts' = <[tid := r]> (_runners ts)
  | LResume _ _ =>
      _runners ts' = _runners ts ∨
      ∃ tid, is_Some (_runners ts !! tid) ∧ _runners ts' = delete tid (_runners ts)
  | _ => _runners ts' = _runners ts
  end.
Proof.
  intros Hrun Hstep.
  destruct (registry_ok_run _ _ _ Hrun (registry_ok_new d dist name))
    as [_ _ Hin].
  apply step_Step in Hstep.
  destruct Hstep as [| | | a ev tid r b ts Hl Hc Hr | | | | h hd resp s ts Hh Hs | |];
    try done.
  - destruct (Hin a ev Hl) as (Hnone & Hc' & _).
    rewrite Hc' in Hc. simplify_eq. by exists (task_id ev), r.
  - unfold resume_handler in Hs. cbn.
    destruct resp as [[]|e|]; destruct (h_pc hd); cbn in Hs;
      repeat case_match; simplify_eq; eauto;
      unfold except_clauses; repeat case_match; eauto.
  - by destruct (stop_frame ts) as (acts & _ & ->).
Qed.

(** ** Leaving and entering [start] again *)

(** X8.  The [finally] clause resets the stop event and the task group and
    nothing else: once [start] has been left it can be entered again, and
    the runners registered before are still there.  An event of a task
    registered before the restart is dispatched to that runner; no runner is
    constructed, so [init] is not called again. *)
Theorem runners_survive_restart ts ts1 a ev r :
  start_exit ts = Some ts1 → _runners ts !! task_id ev = Some r →
  ∃ ts2 ts3,
    step LStart ts1 = Some ts2 ∧ step (LRecv a ev) ts2 = Some ts3 ∧
    _stop_event ts2 = Some false ∧ _tg ts2 = Some false ∧
    _runners ts3 = _runners ts ∧ cell_runner ts3 = Some r ∧
    constructed (trace ts3) = constructed (trace ts) ∧
    handlers ts3
    = handlers ts ++ [{| h_ack_id := a; h_event := ev; h_pc := HReady |}].
Proof.
  intros Hexit Hr. unfold start_exit in Hexit.
  destruct (leaving ts); simplify_eq.
  eexists _, _. split; [done|]. cbn. unfold receive. cbn. rewrite Hr. cbn.
  split_and!; try done.
  cbn -[constructed]. rewrite !constructed_app. cbn. by rewrite !app_nil_r.
Qed.

(** ** [process_event] returns [False] (lines 81-89) *)

(** X9.  A handler is suspended in [process_event]; in a schedule, whatever
    the other tasks do in between, [process_event] returns [False] and
    [ack] returns.  Then all the handler does is call [ack] on its delivery
    handle inside [fail_after(5, shield=True)] and log the success: one
    [ack], no [no_ack], no sleep, no write to the registry, and it ends
    normally. *)
Theorem unfinished_acks_once ts ts' h hd r ls b :
  handlers ts !! h = Some hd → h_pc hd = HProcess r →
  run ls ts = Some ts' →
  responses_of h ls = [Returns false; Returns b] →
  htrace h (trace ts') = htrace h (trace ts) ++ unfinished_actions hd ∧
  queue_calls (unfinished_actions hd) = [ack (h_ack_id hd)] ∧
  count is_sleep (unfinished_actions hd) = 0%nat ∧
  count is_write (unfinished_actions hd) = 0%nat ∧
  pc_of h ts' = Some (HDone Finished).
Proof.
  intros Hh Hpc Hrun Hresp.
  next_answer Hrun t1 s1 Hs1 Hd1 Hh2 Htr2.
  unfold resume_handler in Hs1. rewrite Hpc in Hs1. cbn in Hs1. simplify_eq.
  cbn in Hh2, Htr2.
  next_answer Hrun t3 s3 Hs3 Hd3 Hh4 Htr4.
  cbn in Hs3. simplify_eq. cbn in Hh4, Htr4.
  eapply run_idle in Hrun as [Hh' Htr']; [| done | done | done].
  split_and!; try done.
  - rewrite Htr', Htr4, Htr2. unfold unfinished_actions.
    by rewrite <- !app_assoc.
  - unfold pc_of. by rewrite Hh'.
Qed.

(** X10.  A handler is suspended in [process_event]; in a schedule,
    whatever the other tasks do in between, [process_event] returns [False]
    and then [ack] raises an exception that is not a [TaskError] (or the
    deadline of its block expires).  The call of [ack] is inside the [try]
    body, so the clause [except Exception] catches it: the handler logs at
    ERROR level and calls [no_ack] on the same delivery handle; it writes
    nothing to the registry and ends as [no_ack] answered. *)
Theorem ack_failure_no_acks ts ts' h hd r ls e resp :
  handlers ts !! h = Some hd → h_pc hd = HProcess r →
  is_task_error e = false →
  run ls ts = Some ts' →
  responses_of h ls = [Returns false; Raises e; resp] →
  htrace h (trace ts') = htrace h (trace ts) ++ ack_failed_actions hd e ∧
  queue_calls (ack_failed_actions hd e)
    = [ack (h_ack_id hd); no_ack (h_ack_id hd)] ∧
  count is_write (ack_failed_actions hd e) = 0%nat ∧
  pc_of h ts' = Some (HDone (answered resp)).
Proof.
  intros Hh Hpc He Hrun Hresp.
  next_answer Hrun t1 s1 Hs1 Hd1 Hh2 Htr2.
  unfold resume_handler in Hs1. rewrite Hpc in Hs1. cbn in Hs1. simplify_eq.
  cbn in Hh2, Htr2.
  next_answer Hrun t3 s3 Hs3 Hd3 Hh4 Htr4.
  assert (hs_pc s3 = HUnknownNoAck ∧
          hs_acts s3 = [Exit; Log ERROR (MsgTraceback e);
                        Log ERROR (MsgUnknownError (task_id (h_event hd))
                                     (kind (h_event hd)));
                        Enter (fail_after 5 true);
                        Call (no_ack (h_ack_id hd))]) as [Hpc3 Hacts3].
  { unfold resume_handler in Hs3. cbn in Hs3.
    destruct e; cbn in He; by simplify_eq. }
  rewrite Hpc3 in Hh4. rewrite Hacts3 in Htr4.
  next_answer Hrun t5 s5 Hs5 Hd5 Hh6 Htr6.
  assert (hs_pc s5 = HDone (answered resp) ∧ hs_acts s5 = [Exit]) as [Hpc5 Hacts5].
  { unfold resume_handler in Hs5. cbn in Hs5.
    destruct resp; cbn in Hs5; by simplify_eq. }
  eapply run_idle in Hrun as [Hh' Htr']; [| done | by rewrite Hpc5 | done].
  split_and!; try done.
  - rewrite Htr', Htr6, Htr4, Htr2, Hacts5. unfold ack_failed_actions.
    by rewrite <- !app_assoc.
  - unfold pc_of. rewrite Hh'. cbn. by rewrite Hpc5.
Qed.

(** ** The terminal paths while the loop is quiet (lines 82-89, 103-108) *)

Lemma step_quiet l ts ts' h :
  step l ts = Some ts' → quiet h l = true → scheduled l ≠ Some h →
  cell_task_id ts' = cell_task_id ts ∧
  ∀ k, is_Some (_runners ts !! k) → is_Some (_runners ts' !! k).
Proof.
  intros Hstep%step_Step Hq Hl.
  destruct Hstep; try destruct (stop_frame ts) as (acts & _ & ->);
    cbn in *; try done.
  - split; [done|]. intros k Hk. rewrite lookup_insert_is_Some.
    destruct (decide (tid = k)); eauto.
  - apply bool_decide_eq_true in Hq. congruence.
Qed.

(** As [run_answer], with [task_id] and the registered keys kept up to the
    answer. *)
Lemma run_answer_quiet ls ts ts' h hd resp rest :
  run ls ts = Some ts' → Forall (λ l, quiet h l = true) ls →
  handlers ts !! h = Some hd → h_pc hd ≠ HReady →
  responses_of h ls = resp :: rest →
  ∃ ts1 s ts2 ls2,
    resume_handler ts1 hd resp = Some s ∧
    cell_task_id ts1 = cell_task_id ts ∧
    (∀ k, is_Some (_runners ts !! k) → is_Some (_runners ts1 !! k)) ∧
    handlers ts2 !! h = Some (set_pc (hs_pc s) hd) ∧
    htrace h (trace ts2) = htrace h (trace ts) ++ hs_acts s ∧
    _runners ts2 = hs_runners s ∧
    cell_task_id ts2 = cell_task_id ts ∧
    run ls2 ts2 = Some ts' ∧
    Forall (λ l, quiet h l = true) ls2 ∧ responses_of h ls2 = rest.
Proof.
  revert ts. induction ls as [|l ls IH]; intros ts Hrun Hq Hh Hpc Hresp; [done|].
  cbn in Hrun. destruct (step l ts) as [ts1|] eqn:Hstep; [|done].
  apply Forall_cons in Hq as [Hql Hq].
  destruct (decide (scheduled l = Some h)) as [Hl|Hl].
  - destruct l; cbn in Hl; simplify_eq.
    + cbn in Hstep. unfold start_handler in Hstep. rewrite Hh in Hstep.
      destruct (h_pc hd); try done.
    + cbn in Hresp. rewrite decide_True in Hresp by done. simplify_eq.
      cbn in Hstep. unfold resume in Hstep. rewrite Hh in Hstep.
      destruct (resume_handler ts hd resp) as [s|] eqn:Hs; [|done]. simplify_eq.
      exists ts, s, (apply_hstep h hd s ts), ls. split_and!; try done.
      * by apply apply_hstep_lookup.
      * apply apply_hstep_htrace.
  - destruct (step_frame _ _ _ _ _ Hstep Hl Hh) as [Hh1 Htr1].
    destruct (step_quiet _ _ _ _ Hstep Hql Hl) as [Hc1 Hr1].
    assert (responses_of h ls = resp :: rest) as Hresp'.
    { destruct l; cbn in Hresp; try done. case_decide; [|done].
      cbn in Hl. congruence. }
    destruct (IH _ Hrun Hq Hh1 Hpc Hresp')
      as (t & s & t2 & ls2 & ? & ? & ? & ? & ? & ? & ? & ? & ? & ?).
    exists t, s, t2, ls2. split_and!; try done; [congruence|eauto|congruence..].
Qed.

(** X11.  A handler is suspended in [process_event] while [task_id] in the
    frame of [start] is the task identifier of its event and has an entry.
    In a schedule in which, up to the end of the handler, the loop takes no
    event from the queue and no other handler is resumed, [process_event]
    returns [True] and [ack] returns.  Then the handler deletes the entry of
    its own task, after that calls [ack] on its delivery handle, once, and
    ends normally; it calls neither [no_ack] nor the sleep. *)
Theorem finished_quiet_deletes_then_acks ts ts' h hd r ls b :
  handlers ts !! h = Some hd → h_pc hd = HProcess r →
  cell_task_id ts = Some (task_id (h_event hd)) →
  is_Some (_runners ts !! task_id (h_event hd)) →
  run ls ts = Some ts' → Forall (λ l, quiet h l = true) ls →
  responses_of h ls = [Returns true; Returns b] →
  htrace h (trace ts')
  = htrace h (trace ts) ++ finished_actions hd (task_id (h_event hd)) ∧
  List.filter (λ a, is_write a || is_ack a || is_no_ack a)
    (finished_actions hd (task_id (h_event hd)))
  = [DelItem (task_id (h_event hd)); Call (ack (h_ack_id hd))] ∧
  count is_sleep (finished_actions hd (task_id (h_event hd))) = 0%nat ∧
  pc_of h ts' = Some (HDone Finished).
Proof.
  intros Hh Hpc Hc Hr Hrun Hq Hresp.
  eapply run_answer_quiet in Hrun
    as (t1 & s1 & t2 & l2 & Hs1 & Hc1 & Hr1 & Hh2 & Htr2 & _ & _ & Hrun & _ & Hresp2);
    [| done | done | congruence | done].
  destruct (Hr1 _ Hr) as [r1 Hr1'].
  unfold resume_handler in Hs1. rewrite Hpc, Hc1, Hc in Hs1. cbn in Hs1.
  rewrite Hr1' in Hs1. simplify_eq. cbn in Hh2, Htr2.
  next_answer Hrun t3 s3 Hs3 Hd3 Hh4 Htr4.
  cbn in Hs3. simplify_eq. cbn in Hh4, Htr4.
  eapply run_idle in Hrun as [Hh' Htr']; [| done | done | done].
  split_and!; try done.
  - rewrite Htr', Htr4, Htr2. unfold finished_actions.
    by rewrite <- !app_assoc.
  - unfold pc_of. by rewrite Hh'.
Qed.

(** X12.  The same situation, with [process_event] raising a [TaskError]
    without [retry] and [ack] returning: the handler logs the failure, calls
    [ack] on its delivery handle, once, after that deletes the entry of its
    own task, and ends normally; it calls neither [no_ack] nor the sleep. *)
Theorem failed_quiet_acks_then_deletes ts ts' h hd r ls b :
  handlers ts !! h = Some hd → h_pc hd = HProcess r →
  cell_task_id ts = Some (task_id (h_event hd)) →
  is_Some (_runners ts !! task_id (h_event hd)) →
  run ls ts = Some ts' → Forall (λ l, quiet h l = true) ls →
  responses_of h ls = [Raises (TaskError false); Returns b] →
  htrace h (trace ts')
  = htrace h (trace ts) ++ failed_actions hd (task_id (h_event hd)) ∧
  List.filter (λ a, is_write a || is_ack a || is_no_ack a)
    (failed_actions hd (task_id (h_event hd)))
  = [Call (ack (h_ack_id hd)); DelItem (task_id (h_event hd))] ∧
  count is_sleep (failed_actions hd (task_id (h_event hd))) = 0%nat ∧
  pc_of h ts' = Some (HDone Finished).
Proof.
  intros Hh Hpc Hc Hr Hrun Hq Hresp.
  eapply run_answer_quiet in Hrun
    as (t1 & s1 & t2 & l2 & Hs1 & Hc1 & Hr1 & Hh2 & Htr2 & Hrs2 & Hc2 & Hrun
        & Hq2 & Hresp2);
    [| done | done | congruence | done].
  unfold resume_handler in Hs1. rewrite Hpc in Hs1. cbn in Hs1. simplify_eq.
  cbn in Hh2, Htr2, Hrs2.
  assert (is_Some (_runners t2 !! task_id (h_event hd))) as Hr2
    by (rewrite Hrs2; eauto).
  eapply run_answer_quiet in Hrun
    as (t3 & s3 & t4 & l4 & Hs3 & Hc3 & Hr3 & Hh4 & Htr4 & _ & _ & Hrun
        & _ & Hresp4);
    [| done | done | done | done].
  destruct (Hr3 _ Hr2) as [r3 Hr3'].
  unfold resume_handler in Hs3. cbn in Hs3. rewrite Hc3, Hc2, Hc in Hs3.
  cbn in Hs3. rewrite Hr3' in Hs3. simplify_eq. cbn in Hh4, Htr4.
  eapply run_idle in Hrun as [Hh' Htr']; [| done | done | done].
  split_and!; try done.
  - rewrite Htr', Htr4, Htr2. unfold failed_actions.
    by rewrite <- !app_assoc.
  - unfold pc_of. by rewrite Hh'.
Qed.

(** ** Deliveries and handlers (lines 62-63, 117) *)

Lemma received_app tr1 tr2 : received (tr1 ++ tr2) = received tr1 ++ received tr2.
Proof. apply omap_app. Qed.

Lemma received_other who acts :
  who ≠ Loop → received (map (pair who) acts) = [].
Proof.
  intros Hwho. induction acts as [|a acts IH]; [done|].
  cbn. destruct who; done.
Qed.

Lemma launched_apply_hstep h hd s ts :
  handlers ts !! h = Some hd → launched (apply_hstep h hd s ts) = launched ts.
Proof.
  intros Hh. unfold launched. rewrite apply_hstep_handlers, list_fmap_insert.
  apply list_insert_id. by rewrite list_lookup_fmap, Hh.
Qed.

Lemma launched_ok_step l ts ts' :
  step l ts = Some ts' → launched_ok ts → launched_ok ts'.
Proof.
  unfold launched_ok, pending.
  intros Hstep%step_Step Hok. destruct Hstep.
  - cbn. rewrite H in Hok. by rewrite app_nil_r in *.
  - rewrite H, app_nil_r in Hok. unfold launched in *. cbn -[received].
    rewrite !received_app, fmap_app. cbn. rewrite !app_nil_r.
    by apply sublist_app.
  - rewrite H, app_nil_r in Hok. unfold launched in *. cbn -[received].
    rewrite received_app. by apply sublist_app.
  - rewrite H in Hok. unfold launched in *. cbn -[received].
    rewrite !received_app, fmap_app. cbn. by rewrite !app_nil_r.
  - rewrite H in Hok. cbn. rewrite app_nil_r.
    etrans; [|done]. by apply sublist_inserts_r.
  - rewrite H in Hok. cbn. rewrite app_nil_r.
    etrans; [|done]. by apply sublist_inserts_r.
  - rewrite (launched_apply_hstep _ _ _ _ H), apply_hstep_trace, received_app.
    rewrite received_other, app_nil_r by done. done.
  - rewrite (launched_apply_hstep _ _ _ _ H), apply_hstep_trace, received_app.
    rewrite received_other, app_nil_r by done. done.
  - destruct (stop_frame ts) as (acts & _ & ->). cbn -[received].
    rewrite received_app, received_other, app_nil_r by done. done.
  - cbn. rewrite app_nil_r. etrans; [|done]. by apply sublist_inserts_r.
Qed.

(** X13.  In every state reached from the construction, the handlers the
    loop has started, in the order of [start_soon], followed by the delivery
    whose runner is in [init], are a subsequence of the deliveries [get] has
    returned, each with the delivery handle and the event of that delivery:
    the loop starts at most one handler for a delivery, in the order of the
    deliveries, and none for anything that did not come from the queue. *)
Theorem handlers_follow_deliveries d dist name ls ts :
  run ls (new_task_system d dist name) = Some ts →
  launched ts ++ pending ts `sublist_of` received (trace ts) ∧
  (length (handlers ts) ≤ length (received (trace ts)))%nat.
Proof.
  intros Hrun.
  assert (launched_ok ts) as Hok.
  { eapply (run_preserves launched_ok); [apply launched_ok_step|done|].
    unfold launched_ok. by cbn. }
  split; [done|].
  apply sublist_length in Hok. unfold launched in Hok.
  rewrite length_app, length_fmap in Hok. lia.
Qed.

(** ** [stop] outside and inside a call of [start] (lines 127-131) *)

(** X14.  In every state reached from the construction: while no call of
    [start] is under way (before the first one, and after one has been
    left) [stop] does nothing at all, so a later [start] runs as if [stop]
    had not been called; while a call is under way [stop] leaves the stop
    event set and the task group cancelled, and changes neither the
    registry, nor the handlers, nor where the loop is. *)
Theorem stop_outside_run_does_nothing d dist name ls ts :
  run ls (new_task_system d dist name) = Some ts →
  match loop ts with
  | LNotStarted => stop ts = ts
  | _ =>
      _stop_event (stop ts) = Some true ∧ _tg (stop ts) = Some true ∧
      loop (stop ts) = loop ts ∧ _runners (stop ts) = _runners ts ∧
      handlers (stop ts) = handlers ts
  end.
Proof.
  intros Hrun.
  assert (lifecycle_ok ts) as Hok.
  { eapply (run_preserves lifecycle_ok); [apply lifecycle_ok_step|done|done]. }
  unfold lifecycle_ok in Hok.
  destruct ts as [? ? ? se tg ? lp ? ? ? ? ?]. unfold stop. cbn in *.
  destruct lp;
    try match type of Hok with
        | is_Some _ ∧ _ => destruct Hok as [[? ->] [[] ->]]; by cbn
        end.
  by destruct Hok as [-> ->].
Qed.

(** ** The further properties at concrete schedules *)

Lemma handler_queue_calls_witness :
  let ls := one_in_flight (Returns false) ++ [LResume 0 (Returns false)] in
  let ts := after ls in
  let hd := set_pc (HDone Finished) handler1 in
  (run ls (new_task_system 5 false "sd_lora_inference") = Some ts ∧
   handlers ts !! 0%nat = Some hd) ∧
  queue_calls (htrace 0 (trace ts))
  ∈ [[]; [ack 101]; [ack 101; ack 101]; [no_ack 101]; [ack 101; no_ack 101]].
Proof.
  intros ls ts hd.
  assert (run ls (new_task_system 5 false "sd_lora_inference") = Some ts)
    as H1 by (vm_compute; reflexivity).
  assert (handlers ts !! 0%nat = Some hd) as H2 by (vm_compute; reflexivity).
  exact (conj (conj H1 H2) (handler_queue_calls _ _ _ _ _ _ _ H1 H2)).
Defined.

Lemma ended_handler_answered_witness :
  let ls1 := one_in_flight (Returns false) ++ [LResume 0 (Returns false)] in
  let ls2 := two_in_flight
             ++ [LStop; LResume 0 Cancelled; LResume 0 (Returns false)] in
  let hd1 := set_pc (HDone Finished) handler1 in
  let hd2 := set_pc (HDone RaisedCancelled) handler1 in
  (run ls1 (new_task_system 5 false "sd_lora_inference") = Some (after ls1) ∧
   handlers (after ls1) !! 0%nat = Some hd1 ∧ h_pc hd1 = HDone Finished ∧
   run ls2 (new_task_system 5 false "sd_lora_inference") = Some (after ls2) ∧
   handlers (after ls2) !! 0%nat = Some hd2 ∧
   h_pc hd2 = HDone RaisedCancelled) ∧
  queue_calls (htrace 0 (trace (after ls1)))
  ∈ [[ack 101]; [no_ack 101]; [ack 101; no_ack 101]; [ack 101; ack 101]] ∧
  queue_calls (htrace 0 (trace (after ls2))) = [no_ack 101].
Proof.
  intros ls1 ls2 hd1 hd2.
  assert (run ls1 (new_task_system 5 false "sd_lora_inference")
          = Some (after ls1)) as H1 by (vm_compute; reflexivity).
  assert (handlers (after ls1) !! 0%nat = Some hd1) as H2
    by (vm_compute; reflexivity).
  assert (run ls2 (new_task_system 5 false "sd_lora_inference")
          = Some (after ls2)) as H3 by (vm_compute; reflexivity).
  assert (handlers (after ls2) !! 0%nat = Some hd2) as H4
    by (vm_compute; reflexivity).
  exact (conj (conj H1 (conj H2 (conj eq_refl (conj H3 (conj H4 eq_refl)))))
           (conj (proj1 (ended_handler_answered _ _ _ _ _ _ _ H1 H2) eq_refl)
                 (proj2 (ended_handler_answered _ _ _ _ _ _ _ H3 H4) eq_refl))).
Defined.

Lemma handler_processes_once_witness :
  let ts := after two_in_flight in
  (run two_in_flight (new_task_system 5 false "sd_lora_inference") = Some ts ∧
   handlers ts !! 1%nat = Some handler2) ∧
  List.filter is_process (htrace 1 (trace ts))
  = [Call (process_event runner2 ev2)].
Proof.
  intros ts.
  assert (run two_in_flight (new_task_system 5 false "sd_lora_inference")
          = Some ts) as H1 by (vm_compute; reflexivity).
  assert (handlers ts !! 1%nat = Some handler2) as H2
    by (vm_compute; reflexivity).
  exact (conj (conj H1 H2) (handler_processes_once _ _ _ _ _ _ _ H1 H2)).
Defined.

Lemma handler_answered_at_most_four_times_witness :
  let ls := two_in_flight
            ++ [LResume 0 (Raises (TaskError true)); LResume 0 (Returns false);
                LResume 0 (Returns false)] in
  let ts := after ls in
  let hd := set_pc (HDone Finished) handler1 in
  (run ls (new_task_system 5 false "sd_lora_inference") = Some ts ∧
   handlers ts !! 0%nat = Some hd ∧ h_pc hd = HDone Finished) ∧
  (length (responses_of 0 ls) ≤ 4)%nat ∧
  step (LResume 0 (Returns true)) ts = None.
Proof.
  intros ls ts hd.
  assert (run ls (new_task_system 5 false "sd_lora_inference") = Some ts)
    as H1 by (vm_compute; reflexivity).
  assert (handlers ts !! 0%nat = Some hd) as H2 by (vm_compute; reflexivity).
  destruct (handler_answered_at_most_four_times _ _ _ _ _ 0%nat H1)
    as [Ha Hb].
  exact (conj (conj H1 (conj H2 eq_refl))
           (conj Ha (Hb hd Finished (Returns true) H2 eq_refl))).
Defined.

Lemma start_asserts_not_started_witness :
  let ls1 := two_in_flight in
  let ls2 := one_in_flight (Returns false)
             ++ [LResume 0 (Returns false); LStop; LExit] in
  (run ls1 (new_task_system 5 false "sd_lora_inference") = Some (after ls1) ∧
   run ls2 (new_task_system 5 false "sd_lora_inference") = Some (after ls2)) ∧
  step LStart (after ls1) = None ∧
  ∃ ts', step LStart (after ls2) = Some ts' ∧ _stop_event ts' = Some false ∧
         _runners ts' = _runners (after ls2).
Proof.
  intros ls1 ls2.
  assert (run ls1 (new_task_system 5 false "sd_lora_inference")
          = Some (after ls1)) as H1 by (vm_compute; reflexivity).
  assert (run ls2 (new_task_system 5 false "sd_lora_inference")
          = Some (after ls2)) as H2 by (vm_compute; reflexivity).
  pose proof (start_asserts_not_started _ _ _ _ _ H1) as Ha.
  pose proof (start_asserts_not_started _ _ _ _ _ H2) as Hb.
  change (loop (after ls1)) with LIdle in Ha.
  change (loop (after ls2)) with LNotStarted in Hb.
  destruct Hb as (ts' & _ & Hb1 & Hb2 & _ & _ & Hb3).
  exact (conj (conj H1 H2)
           (conj (proj2 Ha) (ex_intro _ ts' (conj Hb1 (conj Hb2 Hb3))))).
Defined.

Lemma init_failure_registers_nothing_witness :
  let ls := [LStart; LRecv 101 ev1] in
  let ts := after ls in
  let resp := Raises (OtherException "RuntimeError") in
  (run ls (new_task_system 5 false "sd_lora_inference") = Some ts ∧
   loop ts = LAwaitInit 101 ev1 ∧ (∀ b, resp ≠ Returns b)) ∧
  ∃ ts', step (LInit resp) ts = Some ts' ∧
         loop ts' = LFailed (Raised (OtherException "RuntimeError")) ∧
         _runners ts' !! 1 = None ∧ handlers ts' = handlers ts.
Proof.
  intros ls ts resp.
  assert (run ls (new_task_system 5 false "sd_lora_inference") = Some ts)
    as H1 by (vm_compute; reflexivity).
  assert (loop ts = LAwaitInit 101 ev1) as H2 by (vm_compute; reflexivity).
  assert (∀ b, resp ≠ Returns b) as H3 by (intros b; discriminate).
  destruct (init_failure_registers_nothing _ _ _ _ _ _ _ resp H1 H2 H3)
    as (ts' & Ha & Hb & _ & Hc & Hd & _).
  exact (conj (conj H1 (conj H2 H3))
           (ex_intro _ ts' (conj Ha (conj Hb (conj Hc Hd))))).
Defined.

Lemma registry_written_by_witness :
  let ts := after two_in_flight in
  let l := LResume 0 (Returns true) in
  let ts' := after (two_in_flight ++ [l]) in
  (run two_in_flight (new_task_system 5 false "sd_lora_inference") = Some ts ∧
   step l ts = Some ts') ∧
  (_runners ts' = _runners ts ∨
   ∃ tid, is_Some (_runners ts !! tid) ∧ _runners ts' = delete tid (_runners ts)).
Proof.
  intros ts l ts'.
  assert (run two_in_flight (new_task_system 5 false "sd_lora_inference")
          = Some ts) as H1 by (vm_compute; reflexivity).
  assert (step l ts = Some ts') as H2 by (vm_compute; reflexivity).
  exact (conj (conj H1 H2) (registry_written_by _ _ _ _ _ l _ H1 H2)).
Defined.

Lemma runners_survive_restart_witness :
  let ls := one_in_flight (Returns false) ++ [LResume 0 (Returns false); LStop] in
  let ts := after ls in
  let ts1 := after (ls ++ [LExit]) in
  (start_exit ts = Some ts1 ∧ _runners ts !! task_id ev1 = Some runner1) ∧
  ∃ ts2 ts3,
    step LStart ts1 = Some ts2 ∧ step (LRecv 103 ev1) ts2 = Some ts3 ∧
    _runners ts3 = _runners ts ∧ cell_runner ts3 = Some runner1 ∧
    constructed (trace ts3) = constructed (trace ts).
Proof.
  intros ls ts ts1.
  assert (start_exit ts = Some ts1) as H1 by (vm_compute; reflexivity).
  assert (_runners ts !! task_id ev1 = Some runner1) as H2
    by (vm_compute; reflexivity).
  destruct (runners_survive_restart ts ts1 103 ev1 runner1 H1 H2)
    as (ts2 & ts3 & Ha & Hb & _ & _ & Hc & Hd & He & _).
  exact (conj (conj H1 H2)
           (ex_intro _ ts2 (ex_intro _ ts3
              (conj Ha (conj Hb (conj Hc (conj Hd He))))))).
Defined.

Lemma unfinished_acks_once_witness :
  let ts := after two_in_flight in
  let ls := [LResume 0 (Returns false); LResume 1 (Returns true);
             LRecv 103 ev1; LResume 0 (Returns false)] in
  let ts' := after (two_in_flight ++ ls) in
  (handlers ts !! 0%nat = Some handler1 ∧ run ls ts = Some ts') ∧
  htrace 0 (trace ts') = htrace 0 (trace ts) ++ unfinished_actions handler1 ∧
  pc_of 0 ts' = Some (HDone Finished).
Proof.
  intros ts ls ts'.
  assert (handlers ts !! 0%nat = Some handler1) as H1 by (vm_compute; reflexivity).
  assert (run ls ts = Some ts') as H2 by (vm_compute; reflexivity).
  destruct (unfinished_acks_once ts ts' 0 handler1 runner1 ls false
              H1 eq_refl H2 eq_refl)
    as (Ha & _ & _ & _ & Hb).
  exact (conj (conj H1 H2) (conj Ha Hb)).
Defined.

Lemma ack_failure_no_acks_witness :
  let ts := after two_in_flight in
  let ls := [LResume 0 (Returns false); LResume 0 (Raises TimeoutError);
             LResume 1 (Returns false); LResume 0 (Returns false)] in
  let ts' := after (two_in_flight ++ ls) in
  (handlers ts !! 0%nat = Some handler1 ∧ is_task_error TimeoutError = false ∧
   run ls ts = Some ts') ∧
  htrace 0 (trace ts')
  = htrace 0 (trace ts) ++ ack_failed_actions handler1 TimeoutError ∧
  pc_of 0 ts' = Some (HDone Finished).
Proof.
  intros ts ls ts'.
  assert (handlers ts !! 0%nat = Some handler1) as H1 by (vm_compute; reflexivity).
  assert (run ls ts = Some ts') as H2 by (vm_compute; reflexivity).
  destruct (ack_failure_no_acks ts ts' 0 handler1 runner1 ls TimeoutError
              (Returns false) H1 eq_refl eq_refl H2 eq_refl)
    as (Ha & _ & _ & Hb).
  exact (conj (conj H1 (conj eq_refl H2)) (conj Ha Hb)).
Defined.

Lemma finished_quiet_deletes_then_acks_witness :
  let ts := after [LStart; LRecv 101 ev1; LInit (Returns false); LStartHandler 0] in
  let ls := [LResume 0 (Returns true); LStop; LResume 0 (Returns false)] in
  let ts' := default ts (run ls ts) in
  (handlers ts !! 0%nat = Some handler1 ∧ cell_task_id ts = Some 1 ∧
   is_Some (_runners ts !! 1) ∧ run ls ts = Some ts' ∧
   Forall (λ l, quiet 0 l = true) ls) ∧
  htrace 0 (trace ts') = htrace 0 (trace ts) ++ finished_actions handler1 1 ∧
  _runners ts' !! 1 = None ∧
  pc_of 0 ts' = Some (HDone Finished).
Proof.
  intros ts ls ts'.
  assert (handlers ts !! 0%nat = Some handler1) as H1 by (vm_compute; reflexivity).
  assert (cell_task_id ts = Some 1) as H2 by (vm_compute; reflexivity).
  assert (is_Some (_runners ts !! 1)) as H3 by (exists runner1; vm_compute; reflexivity).
  assert (run ls ts = Some ts') as H4 by (vm_compute; reflexivity).
  assert (Forall (λ l, quiet 0 l = true) ls) as H5 by (repeat constructor).
  assert (_runners ts' !! 1 = None) as H6 by (vm_compute; reflexivity).
  destruct (finished_quiet_deletes_then_acks ts ts' 0 handler1 runner1 ls false
              H1 eq_refl H2 H3 H4 H5 eq_refl)
    as (Ha & _ & _ & Hb).
  exact (conj (conj H1 (conj H2 (conj H3 (conj H4 H5)))) (conj Ha (conj H6 Hb))).
Defined.

Lemma failed_quiet_acks_then_deletes_witness :
  let ts := after [LStart; LRecv 101 ev1; LInit (Returns false); LStartHandler 0] in
  let ls := [LResume 0 (Raises (TaskError false)); LStop;
             LResume 0 (Returns false)] in
  let ts' := default ts (run ls ts) in
  (handlers ts !! 0%nat = Some handler1 ∧ cell_task_id ts = Some 1 ∧
   is_Some (_runners ts !! 1) ∧ run ls ts = Some ts' ∧
   Forall (λ l, quiet 0 l = true) ls) ∧
  htrace 0 (trace ts') = htrace 0 (trace ts) ++ failed_actions handler1 1 ∧
  _runners ts' !! 1 = None ∧
  pc_of 0 ts' = Some (HDone Finished).
Proof.
  intros ts ls ts'.
  assert (handlers ts !! 0%nat = Some handler1) as H1 by (vm_compute; reflexivity).
  assert (cell_task_id ts = Some 1) as H2 by (vm_compute; reflexivity).
  assert (is_Some (_runners ts !! 1)) as H3 by (exists runner1; vm_compute; reflexivity).
  assert (run ls ts = Some ts') as H4 by (vm_compute; reflexivity).
  assert (Forall (λ l, quiet 0 l = true) ls) as H5 by (repeat constructor).
  assert (_runners ts' !! 1 = None) as H6 by (vm_compute; reflexivity).
  destruct (failed_quiet_acks_then_deletes ts ts' 0 handler1 runner1 ls false
              H1 eq_refl H2 H3 H4 H5 eq_refl)
    as (Ha & _ & _ & Hb).
  exact (conj (conj H1 (conj H2 (conj H3 (conj H4 H5)))) (conj Ha (conj H6 Hb))).
Defined.

Lemma handlers_follow_deliveries_witness :
  let ls := two_in_flight ++ [LRecv 103 ev1; LRecv 104 ev2] in
  let ts := after ls in
  run ls (new_task_system 5 false "sd_lora_inference") = Some ts ∧
  launched ts ++ pending ts `sublist_of` received (trace ts) ∧
  (length (handlers ts) ≤ length (received (trace ts)))%nat.
Proof.
  intros ls ts.
  assert (run ls (new_task_system 5 false "sd_lora_inference") = Some ts)
    as H1 by (vm_compute; reflexivity).
  exact (conj H1 (handlers_follow_deliveries _ _ _ _ _ H1)).
Defined.

Lemma stop_outside_run_does_nothing_witness :
  let ls1 := [LStop] in
  let ls2 := two_in_flight in
  (run ls1 (new_task_system 5 false "sd_lora_inference") = Some (after ls1) ∧
   run ls2 (new_task_system 5 false "sd_lora_inference") = Some (after ls2)) ∧
  stop (after ls1) = after ls1 ∧
  _stop_event (stop (after ls2)) = Some true ∧
  _tg (stop (after ls2)) = Some true ∧
  _runners (stop (after ls2)) = _runners (after ls2).
Proof.
  intros ls1 ls2.
  assert (run ls1 (new_task_system 5 false "sd_lora_inference")
          = Some (after ls1)) as H1 by (vm_compute; reflexivity).
  assert (run ls2 (new_task_system 5 false "sd_lora_inference")
          = Some (after ls2)) as H2 by (vm_compute; reflexivity).
  pose proof (stop_outside_run_does_nothing _ _ _ _ _ H1) as Ha.
  pose proof (stop_outside_run_does_nothing _ _ _ _ _ H2) as Hb.
  change (loop (after ls1)) with LNotStarted in Ha.
  change (loop (after ls2)) with LIdle in Hb.
  destruct Hb as (Hb1 & Hb2 & _ & Hb3 & _).
  exact (conj (conj H1 H2) (conj Ha (conj Hb1 (conj Hb2 Hb3)))).
Defined.
